(** * Session orchestration of the Playwright MCP agents

    A shallow embedding of the three agents of the repository:
    - [tests/agent_with_pdf_reports.py], class [PlaywrightAgent]
      (interactive prompt, event log, screenshot collection, PDF report);
    - [tests/Login/login_automation.py], class [LoginAutomationAgent]
      (one scripted request, same log / collection / report code);
    - [src/agent.py], function [run] (bare interactive prompt).

    Everything the code asks of its environment is an explicit input:
    the wall clock ([datetime.now()]), the files on disk ([glob.glob],
    [os.path.exists]), the outcome of [doc.build], the lines typed at
    the prompt, the replies of [Runner.run] and the outcome of starting
    the MCP server and of creating the AI agent. *)

From Stdlib Require Import ZArith NArith Ascii String List Lia.
From stdpp Require Import gmap strings list sorting pretty.

Local Open Scope string_scope.
Local Open Scope list_scope.

(** ** Python values used by the agents *)

(** Exceptions.  [TimeoutError] and [Exception msg] are instances of
    Python's [Exception]; [KeyboardInterrupt] stands for the exceptions
    that derive from [BaseException] only (interrupt, task cancellation)
    and that [except Exception] does not catch. *)
Inductive exn : Type :=
| TimeoutError
| Exception (msg : string)
| KeyboardInterrupt.

Definition is_Exception (e : exn) : bool :=
  match e with
  | KeyboardInterrupt => false
  | _ => true
  end.

(** [str(e)].  [asyncio.wait_for] raises [TimeoutError] without
    arguments, so its text is empty. *)
Definition str (e : exn) : string :=
  match e with
  | Exception msg => msg
  | _ => ""
  end.

(** Truth value of an optional string: [None] and [""] are false. *)
Definition truthy (o : option string) : bool :=
  match o with
  | Some s => negb (String.eqb s "")
  | None => false
  end.

(** A text is kept as the bytes of its UTF-8 encoding: a character is
    one byte that begins it and the bytes [10xxxxxx] that continue
    it. *)
Definition is_continuation (c : ascii) : bool :=
  let n := N_of_ascii c in
  (128 <=? n)%N && (n <? 192)%N.

(** [c.lower()] on one character: the letters A-Z move to a-z.  The
    bytes of a character outside ASCII are left as they are, and no
    such character lowers to a letter of [exit] or [report] in Python
    either. *)
Definition lower_ascii (c : ascii) : ascii :=
  let n := N_of_ascii c in
  if (65 <=? n)%N && (n <=? 90)%N then ascii_of_N (n + 32) else c.

(** [s.lower()]. *)
Fixpoint lower (s : string) : string :=
  match s with
  | EmptyString => EmptyString
  | String c s' => String (lower_ascii c) (lower s')
  end.

(** [len(s)]: the number of characters of [s], one for each byte
    that begins a character. *)
Fixpoint len (s : string) : nat :=
  match s with
  | EmptyString => 0
  | String c s' => if is_continuation c then len s' else S (len s')
  end.

(** [s[:n]]: the first [n] characters, each with the bytes that
    continue it; the whole of [s] when it is shorter. *)
Fixpoint slice_to (n : nat) (s : string) {struct s} : string :=
  match s with
  | EmptyString => EmptyString
  | String c s' =>
      if is_continuation c then String c (slice_to n s')
      else
        match n with
        | 0 => EmptyString
        | S n' => String c (slice_to n' s')
        end
  end.

(** [s[:n] + "..." if len(s) > n else s]. *)
Definition truncate (n : nat) (s : string) : string :=
  if (n <? len s)%nat then slice_to n s +:+ "..." else s.

(** [s * n]. *)
Fixpoint repeat_string (n : nat) (s : string) : string :=
  match n with
  | 0 => EmptyString
  | S n' => s +:+ repeat_string n' s
  end.

(** [os.path.basename]: what follows the last slash. *)
Fixpoint basename_from (acc s : string) : string :=
  match s with
  | EmptyString => acc
  | String c s' =>
      if Ascii.eqb c "/" then basename_from s' s' else basename_from acc s'
  end.

Definition basename (p : string) : string := basename_from p p.

(** ** The wall clock *)

(** A naive local [datetime], as [datetime.now()] returns it. *)
Record datetime : Type := mk_datetime {
  year : N; month : N; day : N;
  hour : N; minute : N; second : N;
  microsecond : N
}.

(** What [strftime] keeps with the formats of the agents: the reading
    at second resolution. *)
Definition to_seconds (d : datetime) : datetime :=
  mk_datetime (year d) (month d) (day d) (hour d) (minute d) (second d) 0.

Definition lex (c1 c2 : comparison) : comparison :=
  match c1 with
  | Eq => c2
  | _ => c1
  end.

(** Chronological comparison on the local calendar. *)
Definition dt_compare (a b : datetime) : comparison :=
  lex (year a ?= year b)%N
 (lex (month a ?= month b)%N
 (lex (day a ?= day b)%N
 (lex (hour a ?= hour b)%N
 (lex (minute a ?= minute b)%N
 (lex (second a ?= second b)%N
      (microsecond a ?= microsecond b)%N))))).

Definition dt_leb (a b : datetime) : bool :=
  match dt_compare a b with
  | Gt => false
  | _ => true
  end.

Definition dt_le (a b : datetime) : Prop := dt_leb a b = true.

Definition digit (n : N) : ascii := ascii_of_N (48 + n mod 10).

Definition pad2 (n : N) : string :=
  String (digit (n / 10)) (String (digit n) EmptyString).

Definition pad4 (n : N) : string :=
  String (digit (n / 1000)) (String (digit (n / 100)) (pad2 n)).

(** [strftime("%Y-%m-%d %H:%M:%S")], the text of a log timestamp. *)
Definition strftime_log (d : datetime) : string :=
  pad4 (year d) +:+ "-" +:+ pad2 (month d) +:+ "-" +:+ pad2 (day d) +:+ " "
  +:+ pad2 (hour d) +:+ ":" +:+ pad2 (minute d) +:+ ":" +:+ pad2 (second d).

(** [strftime("%Y%m%d_%H%M%S")], the text of a session id. *)
Definition strftime_id (d : datetime) : string :=
  pad4 (year d) +:+ pad2 (month d) +:+ pad2 (day d) +:+ "_"
  +:+ pad2 (hour d) +:+ pad2 (minute d) +:+ pad2 (second d).

(** ** The files on disk, as the agents observe them *)

Record disk : Type := mk_disk {
  (** [glob.glob(pattern)], in the order the directory scan gives. *)
  glob : string -> list string;
  (** [os.path.exists(path)]. *)
  path_exists : string -> bool;
  (** The resolved path of a file ([os.path.realpath]); the agents
      never ask for it. *)
  realpath : string -> string
}.

(** ** Session state: the fields of the agent object *)

(** One entry of [session_log].  The timestamp text written by
    [strftime] is kept as the second-resolution reading it prints;
    [strftime_log] gives the text back. *)
Record log_entry : Type := mk_entry {
  timestamp : datetime;
  action : string;
  result : option string;
  error : option string
}.

Record agent : Type := mk_agent {
  session_id : string;
  output_dir : string;
  screenshots_dir : string;
  reports_dir : string;
  session_screenshots : list string;
  session_log : list log_entry
}.

(** [__init__]: the session id is the creation time.  The two
    [os.makedirs(..., exist_ok=True)] calls leave the fields alone. *)
Definition init (now : datetime) : agent :=
  let output := "output" in
  mk_agent (strftime_id now) output
           (output +:+ "/screenshots") (output +:+ "/reports") [] [].

(** [log_action(action, result=None, error=None)]. *)
Definition log_action (now : datetime) (act : string)
    (res err : option string) (a : agent) : agent :=
  let log_entry := mk_entry (to_seconds now) act res err in
  mk_agent (session_id a) (output_dir a) (screenshots_dir a) (reports_dir a)
           (session_screenshots a) (session_log a ++ [log_entry]).

Definition screenshot_patterns (a : agent) : list string :=
  [ "*.png"; output_dir a +:+ "/*.png"; screenshots_dir a +:+ "/*.png" ].

(** The inner loop of [collect_screenshots]: append each file that is
    not in the list yet. *)
Fixpoint add_files (files : list string) (shots : list string) : list string :=
  match files with
  | [] => shots
  | file :: files' =>
      if bool_decide (file ∈ shots) then add_files files' shots
      else add_files files' (shots ++ [file])
  end.

(** The outer loop: one [glob.glob] per pattern. *)
Fixpoint scan_patterns (d : disk) (patterns : list string)
    (shots : list string) : list string :=
  match patterns with
  | [] => shots
  | pattern :: patterns' =>
      scan_patterns d patterns' (add_files (glob d pattern) shots)
  end.

(** [collect_screenshots()]. *)
Definition collect_screenshots (d : disk) (a : agent) : agent :=
  mk_agent (session_id a) (output_dir a) (screenshots_dir a) (reports_dir a)
           (scan_patterns d (screenshot_patterns a) (session_screenshots a))
           (session_log a).

(** ** The report document *)

Inductive style : Type :=
| CustomTitle | SessionInfo | Heading2 | ActionHeader | Normal | ErrorStyle
| Caption.

(** The flowables of a reportlab story.  Lengths are in points
    ([inch] is 72 points). *)
Inductive flowable : Type :=
| Paragraph (text : string) (sty : style)
| Spacer (width height : N)
| Image (filename : string) (width height : N)
| PageBreak.

Definition inch : N := 72.

(** What differs between the reports of the two agent classes. *)
Record labels : Type := mk_labels {
  file_stem : string;
  title : string;
  log_heading : string;
  entry_word : string
}.

Definition playwright_labels : labels :=
  mk_labels "playwright_session_" "Playwright Automation Report"
            "Actions Log" "Action".

Definition login_labels : labels :=
  mk_labels "login_automation_" "Login Automation Report"
            "Login Automation Log" "Step".

Definition report_filename (L : labels) (a : agent) : string :=
  reports_dir a +:+ "/" +:+ file_stem L +:+ session_id a +:+ ".pdf".

(** The body of the loop over [enumerate(self.session_log, 1)]. *)
Definition entry_block (L : labels) (i : nat) (e : log_entry) : list flowable :=
  [ Paragraph ("<b>" +:+ entry_word L +:+ " " +:+ pretty i +:+ ":</b> "
               +:+ action e) ActionHeader;
    Paragraph ("<b>Time:</b> " +:+ strftime_log (timestamp e)) Normal ]
  ++ (if truthy (result e)
      then [ Paragraph ("<b>Result:</b> " +:+ default "" (result e)) Normal ]
      else [])
  ++ (if truthy (error e)
      then [ Paragraph ("<b>Error:</b> " +:+ default "" (error e)) ErrorStyle ]
      else [])
  ++ [ Spacer 1 12 ].

(** The names of the styles of [getSampleStyleSheet()]. *)
Definition getSampleStyleSheet : list string :=
  [ "Normal"; "BodyText"; "Italic"; "Heading1"; "Title"; "Heading2";
    "Heading3"; "Heading4"; "Heading5"; "Heading6"; "Bullet"; "Definition";
    "Code"; "UnorderedList"; "OrderedList" ].

Definition double_quote : string := String (ascii_of_N 34) EmptyString.

(** [str(KeyError(msg))] for the message of a style sheet: the [repr]
    of the message, which holds single quotes and so is written between
    double quotes. *)
Definition key_error (name : string) : string :=
  double_quote +:+ "Style '" +:+ name +:+ "' not found in stylesheet"
  +:+ double_quote.

(** [styles[name]]: the style [sty] that goes by that name, or the
    text of the [KeyError] when the sheet has no such name. *)
Definition styles (name : string) (sty : style) : style + string :=
  if bool_decide (name ∈ getSampleStyleSheet) then inl sty
  else inr (key_error name).

(** The body of the loop over [self.session_screenshots].  For the
    [.png] files that are collected [Image(...)] is lazy: it opens
    nothing and does not raise, the file is read when the document is
    built.  The image is in the story before [styles['Caption']] is
    looked up, so an exception of the lookup leaves it there and adds
    the note of the [except] clause. *)
Definition screenshot_block (d : disk) (screenshot : string) : list flowable :=
  if path_exists d screenshot then
    let img := Image screenshot (6 * inch) (4 * inch) in
    match styles "Caption" Caption with
    | inl caption =>
        [ img;
          Paragraph ("<i>" +:+ basename screenshot +:+ "</i>") caption;
          Spacer 1 12 ]
    | inr e =>
        [ img;
          Paragraph ("<b>Error loading screenshot:</b> " +:+ screenshot
                     +:+ " - " +:+ e) Normal ]
    end
  else [].

Definition screenshots_section (d : disk) (shots : list string) : list flowable :=
  match shots with
  | [] => []
  | _ =>
      [ PageBreak; Paragraph "Screenshots" Heading2; Spacer 1 12 ]
      ++ concat (map (screenshot_block d) shots)
  end.

(** The story that [generate_pdf_report] hands to [doc.build]. *)
Definition story (L : labels) (now : datetime) (d : disk) (a : agent)
    : list flowable :=
  [ Paragraph (title L) CustomTitle; Spacer 1 12;
    Paragraph ("<b>Session ID:</b> " +:+ session_id a) SessionInfo;
    Paragraph ("<b>Generated:</b> " +:+ strftime_log now) SessionInfo;
    Paragraph ("<b>Total Actions:</b> " +:+ pretty (length (session_log a)))
              SessionInfo;
    Spacer 1 20;
    Paragraph (log_heading L) Heading2; Spacer 1 12 ]
  ++ concat (imap (fun i e => entry_block L (S i) e) (session_log a))
  ++ screenshots_section d (session_screenshots a).

(** ** The running program: agent object, files written, effects *)

(** What the environment shows at the [n]-th time the program consults
    it.  Every call of [log_action], [collect_screenshots] and
    [generate_pdf_report] is one consultation. *)
Record world : Type := mk_world {
  w_now : nat -> datetime;
  w_disk : nat -> disk;
  (** Building the document ([Paragraph(...)] reads the markup of its
      text, [doc.build(story)] reads the image files and writes the
      report): [None] when the document is written, [Some msg] when an
      exception of text [msg] is raised. *)
  w_build : nat -> option string
}.

(** The effects on the tool process, the controller and the report
    directory, in the order the program performs them. *)
Inductive effect : Type :=
| EAcquire
| ERelease
| EDispatch (request : string)
| ECollect
| ESynthesize (filename : string).

(** The state of a run: the agent object, the number of consultations
    of the environment so far, the report files written and the
    effects performed. *)
Record machine : Type := mk_machine {
  self : agent;
  tick : nat;
  files : gmap string (list flowable);
  trace : list effect
}.

Definition start (w : world) : machine :=
  mk_machine (init (w_now w 0)) 1 ∅ [].

Definition emit (ev : effect) (m : machine) : machine :=
  mk_machine (self m) (tick m) (files m) (trace m ++ [ev]).

Definition do_log (w : world) (act : string) (res err : option string)
    (m : machine) : machine :=
  mk_machine (log_action (w_now w (tick m)) act res err (self m))
             (S (tick m)) (files m) (trace m).

Definition do_collect (w : world) (m : machine) : machine :=
  mk_machine (collect_screenshots (w_disk w (tick m)) (self m))
             (S (tick m)) (files m) (trace m ++ [ECollect]).

(** [generate_pdf_report()]: returns the file name, or raises what
    building the document raised. *)
Definition generate_pdf_report (L : labels) (w : world) (m : machine)
    : (string + exn) * machine :=
  let t := tick m in
  let name := report_filename L (self m) in
  let doc := story L (w_now w t) (w_disk w t) (self m) in
  match w_build w t with
  | None =>
      (inl name,
       mk_machine (self m) (S t) (<[name := doc]> (files m))
                  (trace m ++ [ESynthesize name]))
  | Some msg =>
      (inr (Exception msg),
       mk_machine (self m) (S t) (files m) (trace m ++ [ESynthesize name]))
  end.

(** What stands at the prompt: a line, or an exception out of
    [input()]. *)
Inductive prompt : Type :=
| Line (request : string)
| InputRaises (e : exn).

(** What [asyncio.wait_for(Runner.run(...), timeout)] gives. *)
Inductive reply : Type :=
| FinalOutput (final_output : string)
| Raises (e : exn).

(** One pass of the prompt loop: the input, and the reply the
    controller gives if the input is dispatched. *)
Record turn : Type := mk_turn {
  t_prompt : prompt;
  t_reply : reply
}.

(** How a block of code ends. *)
Inductive ending : Type :=
| Normally
| Raising (e : exn).

(** The [finally] block shared by both agent classes: collect, then
    synthesize; an exception out of the report replaces the pending
    one. *)
Definition finally (L : labels) (w : world) (pending : ending) (m : machine)
    : ending * machine :=
  let m1 := do_collect w m in
  match generate_pdf_report L w m1 with
  | (inl _, m2) => (pending, m2)
  | (inr e, m2) => (Raising e, m2)
  end.

(** How one pass of a [while True] loop ends. *)
Inductive control : Type :=
| Continue
| Break
| Propagate (e : exn).

(** ** [tests/agent_with_pdf_reports.py] *)
Module PlaywrightAgent.

(** The two [except] clauses of the prompt loop. *)
Definition handle (w : world) (e : exn) (m : machine) : control * machine :=
  match e with
  | TimeoutError =>
      let error_msg := "Request timed out after 2 minutes" in
      (Continue, do_log w "Request Timeout" None (Some error_msg) m)
  | Exception msg =>
      (Continue, do_log w "Request Error" None (Some (str e)) m)
  | KeyboardInterrupt => (Propagate e, m)
  end.

(** The body of the prompt loop. *)
Definition step (w : world) (t : turn) (m : machine) : control * machine :=
  match t_prompt t with
  | InputRaises e => handle w e m
  | Line request =>
      if String.eqb (lower request) "exit" then (Break, m)
      else if String.eqb (lower request) "report" then
        let m1 := do_collect w m in
        match generate_pdf_report playwright_labels w m1 with
        | (inl _, m2) => (Continue, m2)
        | (inr e, m2) => handle w e m2
        end
      else
        let m1 := do_log w ("User Request: " +:+ request) None None m in
        let m2 := emit (EDispatch request) m1 in
        match t_reply t with
        | FinalOutput final_output =>
            let result_text := truncate 200 final_output in
            (Continue, do_log w "Request Completed" (Some result_text) None m2)
        | Raises e => handle w e m2
        end
  end.

(** The prompt loop over the turns the user takes.  [None]: the
    turns are used up and the program waits at the prompt. *)
Fixpoint repl (w : world) (script : list turn) (m : machine)
    : option (ending * machine) :=
  match script with
  | [] => None
  | t :: script' =>
      match step w t m with
      | (Continue, m') => repl w script' m'
      | (Break, m') => Some (Normally, m')
      | (Propagate e, m') => Some (Raising e, m')
      end
  end.

(** The outer [except Exception] clause. *)
Definition on_error (w : world) (e : exn) (m : machine) : ending * machine :=
  if is_Exception e
  then (Normally, do_log w "MCP Server Error" None (Some (str e)) m)
  else (Raising e, m).

(** [run()].  [startup] is [Some e] when entering the
    [async with MCPServerStdio(...)] block raises [e], and [created]
    is [Some e] when [create_mcp_ai_agent] raises [e] (the client
    cannot be built without its key, for one).  Leaving the block, by
    [break] or by an exception, releases the server before the
    [except] and [finally] clauses of the enclosing [try] run.  The
    logger and [print] are taken to return. *)
Definition run (w : world) (startup created : option exn)
    (script : list turn) (m : machine) : option (ending * machine) :=
  match startup with
  | Some e =>
      let '(pending, m1) := on_error w e m in
      Some (finally playwright_labels w pending m1)
  | None =>
      let m1 := emit EAcquire m in
      let m2 := do_log w "MCP Server Started"
                  (Some "Server initialized successfully") None m1 in
      match created with
      | Some e =>
          let '(pending, m3) := on_error w e (emit ERelease m2) in
          Some (finally playwright_labels w pending m3)
      | None =>
          let m3 := do_log w "AI Agent Created"
                      (Some "Agent initialized successfully") None m2 in
          match repl w script m3 with
          | None => None
          | Some (Normally, m4) =>
              Some (finally playwright_labels w Normally (emit ERelease m4))
          | Some (Raising e, m4) =>
              let '(pending, m5) := on_error w e (emit ERelease m4) in
              Some (finally playwright_labels w pending m5)
          end
      end
  end.

End PlaywrightAgent.

(** ** [tests/Login/login_automation.py] *)
Module LoginAutomationAgent.

(** The request text built from the arguments; an absent or empty
    user name or password leaves the login part out. *)
Definition login_command (url : string) (username password : option string)
    : string :=
  let base := "Navigate to " +:+ url
              +:+ " and take a screenshot of the login page" in
  if truthy username && truthy password then
    base +:+ ". Then perform a login with username '"
         +:+ default "" username +:+ "' and password '"
         +:+ default "" password
         +:+ "'. Take screenshots at each step: before filling the form, after filling the form, and after submitting. Check if the login was successful."
  else
    base +:+ ". Look for login form elements and take screenshots of the login page.".

(** The only [except] clause: [except Exception]. *)
Definition on_error (w : world) (e : exn) (m : machine) : ending * machine :=
  if is_Exception e
  then (Normally, do_log w "Login Automation Error" None (Some (str e)) m)
  else (Raising e, m).

(** [run_login_automation(url, username, password)], with [startup]
    and [created] as in the interactive agent.  The result is how the
    call ends, what it returns ([None] for Python's [None]) and the
    final state. *)
Definition run_login_automation (w : world) (startup created : option exn)
    (r : reply) (url : string) (username password : option string)
    (m : machine) : ending * option string * machine :=
  match startup with
  | Some e =>
      let '(pending, m1) := on_error w e m in
      let '(fin, m2) := finally login_labels w pending m1 in
      (fin, None, m2)
  | None =>
      let m1 := emit EAcquire m in
      let m2 := do_log w "MCP Server Started"
                  (Some "Server initialized successfully") None m1 in
      match created with
      | Some e =>
          let '(pending, m3) := on_error w e (emit ERelease m2) in
          let '(fin, m4) := finally login_labels w pending m3 in
          (fin, None, m4)
      | None =>
          let m3 := do_log w "AI Agent Created"
                      (Some "Agent initialized successfully") None m2 in
          let cmd := login_command url username password in
          let m4 := do_log w "Login Automation Started"
                      (Some ("URL: " +:+ url)) None m3 in
          let m5 := emit (EDispatch cmd) m4 in
          match r with
          | FinalOutput final_output =>
              let result_text := truncate 500 final_output in
              let m6 := do_log w "Login Automation Completed"
                          (Some result_text) None m5 in
              let '(fin, m7) :=
                finally login_labels w Normally (emit ERelease m6) in
              (fin, Some final_output, m7)
          | Raises e =>
              let '(pending, m6) := on_error w e (emit ERelease m5) in
              let '(fin, m7) := finally login_labels w pending m6 in
              (fin, None, m7)
          end
      end
  end.

End LoginAutomationAgent.

(** ** [src/agent.py] *)
Module Agent.

(** The body of the prompt loop; this agent keeps no log, its state
    is the list of effects. *)
Definition step (t : turn) (tr : list effect) : control * list effect :=
  match t_prompt t with
  | InputRaises e =>
      if is_Exception e then (Continue, tr) else (Propagate e, tr)
  | Line request =>
      if String.eqb (lower request) "exit" then (Break, tr)
      else
        let tr1 := tr ++ [EDispatch request] in
        match t_reply t with
        | FinalOutput _ => (Continue, tr1)
        | Raises e =>
            if is_Exception e then (Continue, tr1) else (Propagate e, tr1)
        end
  end.

Fixpoint repl (script : list turn) (tr : list effect)
    : option (ending * list effect) :=
  match script with
  | [] => None
  | t :: script' =>
      match step t tr with
      | (Continue, tr') => repl script' tr'
      | (Break, tr') => Some (Normally, tr')
      | (Propagate e, tr') => Some (Raising e, tr')
      end
  end.

(** [run()], with [startup] and [created] as in the report agents. *)
Definition run (startup created : option exn) (script : list turn)
    : option (ending * list effect) :=
  match startup with
  | Some e => Some (if is_Exception e then Normally else Raising e, [])
  | None =>
      match created with
      | Some e =>
          Some (if is_Exception e then Normally else Raising e,
                [EAcquire; ERelease])
      | None =>
          match repl script [EAcquire] with
          | None => None
          | Some (Normally, tr) => Some (Normally, tr ++ [ERelease])
          | Some (Raising e, tr) =>
              Some (if is_Exception e then Normally else Raising e,
                    tr ++ [ERelease])
          end
      end
  end.

End Agent.

(** ** The atomic operations a run is made of *)

(** One operation on the machine; [allowed] says which effects a piece
    of code may emit on the tool process and the controller, [L] which
    report it writes. *)
Inductive op (w : world) (L : labels) (allowed : effect -> Prop)
    : machine -> machine -> Prop :=
| op_log act res err m : op w L allowed m (do_log w act res err m)
| op_collect m : op w L allowed m (do_collect w m)
| op_report m : op w L allowed m (generate_pdf_report L w m).2
| op_emit ev m : allowed ev -> op w L allowed m (emit ev m).

Definition is_dispatch (ev : effect) : Prop := exists request, ev = EDispatch request.

Definition is_synthesize (ev : effect) : bool :=
  match ev with
  | ESynthesize _ => true
  | _ => false
  end.

(** The effects on the tool process and the controller. *)
Definition on_process (ev : effect) : Prop :=
  ev = EAcquire \/ ev = ERelease \/ is_dispatch ev.

(** How many times report synthesis ran. *)
Definition syntheses (tr : list effect) : nat :=
  length (List.filter is_synthesize tr).

(** The log is stamped by the clock: its timestamps are the readings
    at increasing consultations, all before consultation [n]. *)
Definition stamped (w : world) (n : nat) (log : list log_entry) : Prop :=
  exists ticks : list nat,
    StronglySorted lt ticks /\ Forall (fun t => t < n) ticks /\
    timestamp <$> log = (fun t => to_seconds (w_now w t)) <$> ticks.

(** Timestamps never decrease along the log. *)
Definition nondecreasing (log : list log_entry) : Prop :=
  forall i j e1 e2, i <= j -> log !! i = Some e1 -> log !! j = Some e2 ->
    dt_le (timestamp e1) (timestamp e2).

(** ** The claims in the words of the specification *)

(** A text that does not begin in the middle of a character. *)
Definition begins_character (s : string) : Prop :=
  match s with
  | EmptyString => True
  | String c _ => is_continuation c = false
  end.

(** Teardown as specified: collection, synthesis, then the release of
    the tool process, which was not released before. *)
Definition teardown_as_specified (tr : list effect) : Prop :=
  exists body f, tr = body ++ [ECollect; ESynthesize f; ERelease] /\
    (ERelease ∉ body).

(** Teardown as the code performs it: the tool process, when it was
    acquired, is released first; collection and synthesis come last. *)
Definition teardown_as_coded (acquired : bool) (tr : list effect) : Prop :=
  exists body f,
    (ERelease ∉ body) /\
    tr = (if acquired then EAcquire :: body ++ [ERelease] else []) ++
         [ECollect; ESynthesize f].

(** Whether entering the [async with] block succeeded. *)
Definition acquired (startup : option exn) : bool :=
  match startup with
  | None => true
  | Some _ => false
  end.

(** Two characters that are equal or are the two cases of one letter. *)
Definition same_letter (a b : ascii) : bool :=
  let x := N_of_ascii a in
  let y := N_of_ascii b in
  (x =? y)%N
  || ((65 <=? x)%N && (x <=? 90)%N && (y =? x + 32)%N)
  || ((65 <=? y)%N && (y <=? 90)%N && (x =? y + 32)%N).

(** Two lines that differ by nothing other than letter case. *)
Fixpoint same_up_to_case (s t : string) : bool :=
  match s, t with
  | EmptyString, EmptyString => true
  | String a s', String b t' => same_letter a b && same_up_to_case s' t'
  | _, _ => false
  end.

(** A turn that is an ordinary request: a line that is no command and
    a reply that is no interrupt. *)
Definition plain_request (t : turn) : Prop :=
  exists request,
    t_prompt t = Line request /\ lower request <> "exit" /\
    lower request <> "report" /\ t_reply t <> Raises KeyboardInterrupt.

(** ** Concrete environments *)

Definition noon : datetime := mk_datetime 2025 6 1 12 0 0 0.

(** A directory with two screenshots, one of them under [output]. *)
Definition plain_disk : disk :=
  mk_disk
    (fun pattern =>
       if String.eqb pattern "*.png" then ["home.png"]
       else if String.eqb pattern "output/*.png" then ["output/login.png"]
       else [])
    (fun _ => true)
    (fun p => "/work/" +:+ p).

(** The same directory where [latest.png] is a symbolic link to
    [output/login.png]. *)
Definition linked_disk : disk :=
  mk_disk
    (fun pattern =>
       if String.eqb pattern "*.png" then ["latest.png"]
       else if String.eqb pattern "output/*.png" then ["output/login.png"]
       else [])
    (fun _ => true)
    (fun p => if String.eqb p "latest.png" then "/work/output/login.png"
              else "/work/" +:+ p).

(** [home.png] was deleted after it was collected. *)
Definition damaged_disk : disk :=
  mk_disk (glob plain_disk)
    (fun p => negb (String.eqb p "home.png"))
    (realpath plain_disk).

(** A quiet world: the clock stands at noon, the files stay, every
    report is written. *)
Definition still_world : world :=
  mk_world (fun _ => noon) (fun _ => plain_disk) (fun _ => None).

(** The night daylight saving time ends: the local clock reads
    01:59:58 and, five seconds later, 01:00:03. *)
Definition dst_world : world :=
  mk_world
    (fun n => if (n <=? 1)%nat then mk_datetime 2025 11 2 1 59 58 0
              else mk_datetime 2025 11 2 1 0 3 0)
    (fun _ => plain_disk) (fun _ => None).

(** A world whose report directory cannot be written. *)
Definition readonly_world : world :=
  mk_world (fun _ => noon) (fun _ => plain_disk)
           (fun _ => Some "Permission denied").

Definition exit_turn : turn := mk_turn (Line "exit") (Raises TimeoutError).
Definition report_turn : turn := mk_turn (Line "report") (Raises TimeoutError).
Definition request_turn : turn :=
  mk_turn (Line "open example.com") (FinalOutput "Opened example.com").
Definition slow_turn : turn :=
  mk_turn (Line "open example.com") (Raises TimeoutError).

(** A request answered by an output of 210 characters. *)
Definition long_output : string := repeat_string 70 "abc".
Definition long_turn : turn :=
  mk_turn (Line "open example.com") (FinalOutput long_output).

(** An output of 150 characters in 300 bytes. *)
Definition accented_output : string := repeat_string 150 "é".

(** ** [tests/agent_backup.py] *)
Module Backup.

(** The body of the prompt loop: no [try], no time bound; whatever
    [input()] or [Runner.run] raises leaves the loop. *)
Definition step (t : turn) (tr : list effect) : control * list effect :=
  match t_prompt t with
  | InputRaises e => (Propagate e, tr)
  | Line request =>
      if String.eqb (lower request) "exit" then (Break, tr)
      else
        let tr1 := tr ++ [EDispatch request] in
        match t_reply t with
        | FinalOutput _ => (Continue, tr1)
        | Raises e => (Propagate e, tr1)
        end
  end.

Fixpoint repl (script : list turn) (tr : list effect)
    : option (ending * list effect) :=
  match script with
  | [] => None
  | t :: script' =>
      match step t tr with
      | (Continue, tr') => repl script' tr'
      | (Break, tr') => Some (Normally, tr')
      | (Propagate e, tr') => Some (Raising e, tr')
      end
  end.

(** [run()]: the [async with] block alone, nothing is caught. *)
Definition run (startup created : option exn) (script : list turn)
    : option (ending * list effect) :=
  match startup with
  | Some e => Some (Raising e, [])
  | None =>
      match created with
      | Some e => Some (Raising e, [EAcquire; ERelease])
      | None =>
          match repl script [EAcquire] with
          | None => None
          | Some (fin, tr) => Some (fin, tr ++ [ERelease])
          end
      end
  end.

End Backup.

(** ** [tests/Login/test_login.py] *)
Module TestLogin.

Definition default_url : string := "http://localhost:81/dashboard/".

(** [sys.argv[i] if len(sys.argv) > i else ...] for the three
    arguments; [argv !! 0] is the script name. *)
Definition parse_argv (argv : list string)
    : string * option string * option string :=
  (default default_url (argv !! 1), argv !! 2, argv !! 3).

(** Which of the two closing messages [main] prints. *)
Inductive verdict : Type :=
| Succeeded
| Failed.

(** [main()]: a fresh agent, one run, and the verdict [if result:]
    gives; [None] when the run raised and nothing was printed. *)
Definition main (w : world) (startup created : option exn) (r : reply)
    (argv : list string) : ending * option verdict * machine :=
  let '(url, username, password) := parse_argv argv in
  let '(fin, result, m) :=
    LoginAutomationAgent.run_login_automation
      w startup created r url username password (start w) in
  match fin with
  | Normally => (Normally, Some (if truthy result then Succeeded else Failed), m)
  | Raising e => (Raising e, None, m)
  end.

End TestLogin.

(** ** Readings of a report, a log and a trace *)

Definition is_image (f : flowable) : bool :=
  match f with
  | Image _ _ _ => true
  | _ => false
  end.

Definition is_page_break (f : flowable) : bool :=
  match f with
  | PageBreak => true
  | _ => false
  end.

(** The heading line of one log entry. *)
Definition is_entry_header (f : flowable) : bool :=
  match f with
  | Paragraph _ ActionHeader => true
  | _ => false
  end.

(** What is left of a text after a given beginning. *)
Fixpoint strip_prefix (p s : string) : option string :=
  match p with
  | EmptyString => Some s
  | String a p' =>
      match s with
      | String b s' => if Ascii.eqb a b then strip_prefix p' s' else None
      | EmptyString => None
      end
  end.

(** The inline note of the [except] clause of the screenshot loop. *)
Definition is_load_note (f : flowable) : bool :=
  match f with
  | Paragraph text Normal =>
      match strip_prefix "<b>Error loading screenshot:</b> " text with
      | Some _ => true
      | None => false
      end
  | _ => false
  end.

(** How many flowables of a story satisfy a test. *)
Definition count (p : flowable -> bool) (st : list flowable) : nat :=
  length (List.filter p st).

(** The caption line under a screenshot. *)
Definition is_caption (f : flowable) : bool :=
  match f with
  | Paragraph _ Caption => true
  | _ => false
  end.

(** The requests handed to the controller, in order. *)
Definition dispatched (tr : list effect) : list string :=
  omap (fun ev => match ev with
                  | EDispatch request => Some request
                  | _ => None
                  end) tr.

(** The request a log entry records, for the entries written before a
    dispatch. *)
Definition logged_request (e : log_entry) : option string :=
  strip_prefix "User Request: " (action e).

(** The lines typed at the prompt. *)
Definition typed (script : list turn) : list string :=
  omap (fun t => match t_prompt t with
                 | Line request => Some request
                 | InputRaises _ => None
                 end) script.

(** A turn where the prompt returns a line and the controller an
    output. *)
Definition calm (t : turn) : Prop :=
  (exists request, t_prompt t = Line request) /\
  (exists out, t_reply t = FinalOutput out).

(** A turn where reading the prompt fails with an exception that
    [except Exception] catches (end of input, for one). *)
Definition failed_read (t : turn) : Prop :=
  exists e, t_prompt t = InputRaises e /\ is_Exception e = true.

(** The invariants of the fields of a Python [datetime]. *)
Definition calendar (d : datetime) : Prop :=
  (1 <= year d <= 9999)%N /\ (1 <= month d <= 12)%N /\ (1 <= day d <= 31)%N /\
  (hour d < 24)%N /\ (minute d < 60)%N /\ (second d < 60)%N /\
  (microsecond d < 1000000)%N.

(** The entries the two report agents can write: at most one of
    result and error is set. *)
Definition one_sided (e : log_entry) : Prop :=
  result e = None \/ error e = None.

(** A stored result of at most [n] characters and the three dots. *)
Definition bounded_result (n : nat) (e : log_entry) : Prop :=
  forall r, result e = Some r -> len r <= n + 3.

(** The log records the requests the trace dispatches, in order. *)
Definition audited (log : list log_entry) (tr : list effect) : Prop :=
  omap logged_request log = dispatched tr.

(** [m'] comes after [m]: its log and its trace extend those of [m],
    the added entries record the added dispatches, none of them has
    both a result and an error, and their results fit the bound. *)
Definition extends (n : nat) (m m' : machine) : Prop :=
  exists new_log new_tr,
    session_log (self m') = session_log (self m) ++ new_log /\
    trace m' = trace m ++ new_tr /\
    audited new_log new_tr /\
    Forall one_sided new_log /\ Forall (bounded_result n) new_log.

(** * Properties *)

(** ** Screenshot collection *)

Section Collection.

Implicit Types (files shots : list string) (d : disk) (a : agent).

Lemma add_files_prefix files shots : shots `prefix_of` add_files files shots.
Proof.
  revert shots. induction files as [|file files IH]; intros shots; simpl.
  - done.
  - case_bool_decide.
    + apply IH.
    + etrans; [apply prefix_app_r; reflexivity | apply IH].
Qed.

Lemma add_files_NoDup files shots :
  NoDup shots -> NoDup (add_files files shots).
Proof.
  revert shots. induction files as [|file files IH]; intros shots Hnd; simpl.
  - done.
  - case_bool_decide as Hin.
    + by apply IH.
    + apply IH. apply NoDup_app. split_and!; [done | | apply NoDup_singleton].
      intros x Hx ->%list_elem_of_singleton. done.
Qed.

(** Files already listed are left alone. *)
Lemma add_files_known files shots :
  files ⊆ shots -> add_files files shots = shots.
Proof.
  revert shots. induction files as [|file files IH]; intros shots Hsub; simpl.
  - done.
  - rewrite bool_decide_eq_true_2; [|set_solver]. apply IH. set_solver.
Qed.

(** Every file of the scan is listed afterwards. *)
Lemma add_files_covers files shots : files ⊆ add_files files shots.
Proof.
  revert shots. induction files as [|file files IH]; intros shots; simpl.
  - set_solver.
  - intros x [->|Hx]%elem_of_cons.
    + case_bool_decide as Hin.
      * destruct (add_files_prefix files shots) as [k ->]. set_solver.
      * destruct (add_files_prefix files (shots ++ [file])) as [k ->].
        set_solver.
    + case_bool_decide; by apply IH.
Qed.

Lemma scan_patterns_prefix d patterns shots :
  shots `prefix_of` scan_patterns d patterns shots.
Proof.
  revert shots. induction patterns as [|p ps IH]; intros shots; simpl.
  - done.
  - etrans; [apply add_files_prefix | apply IH].
Qed.

Lemma scan_patterns_NoDup d patterns shots :
  NoDup shots -> NoDup (scan_patterns d patterns shots).
Proof.
  revert shots. induction patterns as [|p ps IH]; intros shots Hnd; simpl.
  - done.
  - by apply IH, add_files_NoDup.
Qed.

Lemma scan_patterns_covers d patterns shots p :
  p ∈ patterns -> glob d p ⊆ scan_patterns d patterns shots.
Proof.
  revert shots. induction patterns as [|q ps IH]; intros shots Hp; simpl.
  - by apply elem_of_nil in Hp.
  - apply elem_of_cons in Hp as [->|Hp].
    + intros x Hx. apply (add_files_covers _ shots) in Hx.
      destruct (scan_patterns_prefix d ps (add_files (glob d q) shots)) as [k ->].
      set_solver.
    + by apply IH.
Qed.

Lemma scan_patterns_known d patterns shots :
  (forall p, p ∈ patterns -> glob d p ⊆ shots) ->
  scan_patterns d patterns shots = shots.
Proof.
  revert shots. induction patterns as [|q ps IH]; intros shots Hsub; simpl.
  - done.
  - rewrite add_files_known; [|apply Hsub; set_solver].
    apply IH. intros p Hp. apply Hsub. set_solver.
Qed.

End Collection.

(** C5, as the specification states it, fails: the code compares the
    path texts that [glob.glob] returns and resolves nothing, so a file
    reached under two names (here through a symbolic link) is added
    twice. *)
Lemma collect_same_file_twice :
  session_screenshots (collect_screenshots linked_disk (init noon))
    = ["latest.png"; "output/login.png"] /\
  ~ NoDup (map (realpath linked_disk)
             (session_screenshots (collect_screenshots linked_disk (init noon)))).
Proof.
  split; [reflexivity|].
  vm_compute. intros Hnd. apply NoDup_cons in Hnd as [Hnotin _].
  apply Hnotin. apply list_elem_of_singleton. reflexivity.
Qed.

(** C5, amended: collection is monotonic and idempotent on path texts.
    Every call keeps the artifacts it had, in place, and only appends;
    a list without repeated path text stays so; and a second call that
    finds no match the first did not find leaves the agent as it is. *)
Theorem collect_screenshots_adds_once (d d' : disk) (a : agent)
    (Hnodup : NoDup (session_screenshots a))
    (Hnonew : forall p, p ∈ screenshot_patterns a -> glob d' p ⊆ glob d p) :
  session_screenshots a `prefix_of` session_screenshots (collect_screenshots d a)
  /\ NoDup (session_screenshots (collect_screenshots d a))
  /\ collect_screenshots d' (collect_screenshots d a) = collect_screenshots d a.
Proof.
  split_and!.
  - apply scan_patterns_prefix.
  - by apply scan_patterns_NoDup.
  - unfold collect_screenshots at 1. cbn [session_id output_dir screenshots_dir
      reports_dir session_log session_screenshots collect_screenshots].
    unfold collect_screenshots. f_equal.
    apply scan_patterns_known. intros p Hp.
    etrans; [by apply Hnonew|]. by apply scan_patterns_covers.
Qed.

Lemma collect_screenshots_adds_once_witness :
  NoDup (session_screenshots (init noon))
  /\ session_screenshots (init noon)
       `prefix_of` session_screenshots (collect_screenshots plain_disk (init noon))
  /\ NoDup (session_screenshots (collect_screenshots plain_disk (init noon)))
  /\ collect_screenshots plain_disk (collect_screenshots plain_disk (init noon))
       = collect_screenshots plain_disk (init noon).
Proof.
  assert (Hnd : NoDup (session_screenshots (init noon))) by constructor.
  split; [exact Hnd|].
  apply (collect_screenshots_adds_once plain_disk plain_disk (init noon) Hnd).
  intros p _ x Hx. exact Hx.
Defined.

(** ** Report rendering *)

Lemma screenshot_blocks_app (d : disk) (before after : list string) (shot : string) :
  concat (map (screenshot_block d) (before ++ shot :: after))
  = concat (map (screenshot_block d) before) ++ screenshot_block d shot
    ++ concat (map (screenshot_block d) after).
Proof. by rewrite map_app, concat_app. Qed.

Lemma screenshots_section_cons (d : disk) (before after : list string) (shot : string) :
  screenshots_section d (before ++ shot :: after)
  = [ PageBreak; Paragraph "Screenshots" Heading2; Spacer 1 12 ]
    ++ concat (map (screenshot_block d) before) ++ screenshot_block d shot
    ++ concat (map (screenshot_block d) after).
Proof.
  unfold screenshots_section. rewrite screenshot_blocks_app.
  by destruct before.
Qed.

(** The sample style sheet has no caption style. *)
Lemma screenshot_block_on_disk (d : disk) (shot : string) :
  path_exists d shot = true ->
  screenshot_block d shot
  = [ Image shot (6 * inch) (4 * inch);
      Paragraph ("<b>Error loading screenshot:</b> " +:+ shot +:+ " - "
                 +:+ key_error "Caption") Normal ].
Proof. unfold screenshot_block. by intros ->. Qed.

Lemma screenshot_block_vanished (d : disk) (shot : string) :
  path_exists d shot = false -> screenshot_block d shot = [].
Proof. unfold screenshot_block. by intros ->. Qed.

(** C6, as the specification states it, fails: [home.png] was
    collected and then deleted; the report has nothing at all for it,
    no image and no note, and the only note is that of the caption of
    [output/login.png]. *)
Lemma vanished_screenshot_leaves_no_note :
  session_screenshots (collect_screenshots plain_disk (init noon))
    = ["home.png"; "output/login.png"] /\
  path_exists damaged_disk "home.png" = false /\
  screenshot_block damaged_disk "home.png" = [] /\
  screenshots_section damaged_disk
    (session_screenshots (collect_screenshots plain_disk (init noon)))
  = [ PageBreak; Paragraph "Screenshots" Heading2; Spacer 1 12;
      Image "output/login.png" (6 * inch) (4 * inch);
      Paragraph ("<b>Error loading screenshot:</b> output/login.png - "
                 +:+ key_error "Caption") Normal ].
Proof. repeat split; reflexivity. Qed.

Lemma entry_blocks_no_image (L : labels) (log : list log_entry) (n : nat)
    (file : string) (width height : N) :
  Image file width height
  ∉ concat (imap (fun i e => entry_block L (n + i) e) log).
Proof.
  revert n. induction log as [|e log IH]; intros n; [apply not_elem_of_nil|].
  cbn [imap concat]. intros [Hin|Hin]%elem_of_app.
  - unfold entry_block in Hin.
    destruct (truthy (result e)), (truthy (error e)); simpl in Hin;
      repeat (apply elem_of_cons in Hin as [Hin|Hin]; [discriminate|]);
      by apply elem_of_nil in Hin.
  - apply (IH (S n)). erewrite imap_ext; [exact Hin|].
    intros i x _. simpl. f_equal. lia.
Qed.

Lemma screenshot_blocks_image (d : disk) (shots : list string)
    (file : string) (width height : N) :
  Image file width height ∈ concat (map (screenshot_block d) shots) ->
  file ∈ shots /\ path_exists d file = true.
Proof.
  induction shots as [|shot shots IH]; simpl; [by intros []%elem_of_nil|].
  intros [Hin|Hin]%elem_of_app.
  - destruct (path_exists d shot) eqn:Hdisk.
    + rewrite (screenshot_block_on_disk d shot Hdisk) in Hin.
      apply elem_of_cons in Hin as [[= -> _ _]|Hin].
      * split; [apply list_elem_of_here|done].
      * apply list_elem_of_singleton in Hin. discriminate.
    + rewrite (screenshot_block_vanished d shot Hdisk) in Hin.
      by apply elem_of_nil in Hin.
  - destruct (IH Hin) as [Hshots Hdisk].
    split; [by apply list_elem_of_further|done].
Qed.

(** The images of a story are collected screenshots still on disk. *)
Lemma story_image (L : labels) (now : datetime) (d : disk) (a : agent)
    (file : string) (width height : N) :
  Image file width height ∈ story L now d a ->
  file ∈ session_screenshots a /\ path_exists d file = true.
Proof.
  unfold story. intros [Hin|[Hin|Hin]%elem_of_app]%elem_of_app.
  - repeat (apply elem_of_cons in Hin as [Hin|Hin]; [discriminate|]).
    by apply elem_of_nil in Hin.
  - by apply (entry_blocks_no_image L (session_log a) 1) in Hin.
  - unfold screenshots_section in Hin.
    destruct (session_screenshots a) as [|shot shots] eqn:Hshots;
      [by apply elem_of_nil in Hin|].
    apply elem_of_app in Hin as [Hin|Hin].
    + repeat (apply elem_of_cons in Hin as [Hin|Hin]; [discriminate|]).
      by apply elem_of_nil in Hin.
    + by apply screenshot_blocks_image in Hin.
Qed.

(** C6, amended: a collected file that no longer exists when the
    report is rendered is left out of the story, without an inline
    note, and the story is otherwise the one of the other artifacts:
    the document head and the log entries, the heading of the
    screenshot section, and the blocks of the artifacts before and
    after it, in order.  No image of the story names the file, so the
    document build never opens it. *)
Theorem vanished_screenshot_is_left_out (L : labels) (now : datetime)
    (d : disk) (a : agent) (before after : list string) (shot : string)
    (Hshots : session_screenshots a = before ++ shot :: after)
    (Hgone : path_exists d shot = false) :
  story L now d a
  = story L now d (mk_agent (session_id a) (output_dir a) (screenshots_dir a)
                            (reports_dir a) [] (session_log a))
    ++ [ PageBreak; Paragraph "Screenshots" Heading2; Spacer 1 12 ]
    ++ concat (map (screenshot_block d) before)
    ++ concat (map (screenshot_block d) after)
  /\ screenshot_block d shot = []
  /\ forall width height, Image shot width height ∉ story L now d a.
Proof.
  split_and!.
  - unfold story. cbn [session_id session_log session_screenshots].
    rewrite Hshots, screenshots_section_cons.
    cbn [screenshots_section]. rewrite !app_nil_r, <- !app_assoc.
    by rewrite (screenshot_block_vanished d shot Hgone).
  - by apply screenshot_block_vanished.
  - intros width height [_ Hdisk]%story_image. congruence.
Qed.

Lemma vanished_screenshot_is_left_out_witness :
  story playwright_labels noon damaged_disk
        (collect_screenshots plain_disk (init noon))
  = story playwright_labels noon damaged_disk (init noon)
    ++ [ PageBreak; Paragraph "Screenshots" Heading2; Spacer 1 12 ]
    ++ concat (map (screenshot_block damaged_disk) [])
    ++ concat (map (screenshot_block damaged_disk) ["output/login.png"])
  /\ forall width height,
       Image "home.png" width height
       ∉ story playwright_labels noon damaged_disk
               (collect_screenshots plain_disk (init noon)).
Proof.
  destruct (vanished_screenshot_is_left_out playwright_labels noon damaged_disk
              (collect_screenshots plain_disk (init noon))
              [] ["output/login.png"] "home.png" eq_refl eq_refl)
    as (Hstory & _ & Himage).
  split; [exact Hstory | exact Himage].
Defined.

(** ** Runs are sequences of atomic operations *)

Ltac process_effect :=
  unfold on_process, is_dispatch; intros; eauto.

Tactic Notation "emits" uconstr(ev) :=
  eapply rtc_l; [eapply (op_emit _ _ _ ev); process_effect|].

Section Operations.

Context (w : world).
Implicit Types (L : labels) (allowed : effect -> Prop) (m : machine).

Lemma report_op L allowed m r m' :
  generate_pdf_report L w m = (r, m') -> op w L allowed m m'.
Proof.
  intros Hgen. pose proof (op_report w L allowed m) as Hop.
  by rewrite Hgen in Hop.
Qed.

Lemma finally_ops L allowed pending m fin m' :
  finally L w pending m = (fin, m') -> rtc (op w L allowed) m m'.
Proof.
  unfold finally.
  destruct (generate_pdf_report L w (do_collect w m)) as [[f|e] m2] eqn:Hgen;
    intros [= <- <-];
    (eapply rtc_l; [apply op_collect|]);
    eapply rtc_once, report_op, Hgen.
Qed.

Lemma op_weaken L (allowed allowed' : effect -> Prop) m m' :
  (forall ev, allowed ev -> allowed' ev) ->
  op w L allowed m m' -> op w L allowed' m m'.
Proof. intros Himpl Hop. destruct Hop; constructor. by apply Himpl. Qed.

Lemma ops_weaken L (allowed allowed' : effect -> Prop) m m' :
  (forall ev, allowed ev -> allowed' ev) ->
  rtc (op w L allowed) m m' -> rtc (op w L allowed') m m'.
Proof.
  intros Himpl. apply rtc_subrel. intros x y. by apply op_weaken.
Qed.

Lemma interactive_handle_ops L allowed e m c m' :
  PlaywrightAgent.handle w e m = (c, m') -> rtc (op w L allowed) m m'.
Proof.
  destruct e; simpl; intros [= <- <-];
    first [ apply rtc_once, op_log | reflexivity ].
Qed.

Lemma interactive_step_ops t m c m' :
  PlaywrightAgent.step w t m = (c, m') ->
  rtc (op w playwright_labels is_dispatch) m m'.
Proof.
  unfold PlaywrightAgent.step.
  destruct (t_prompt t) as [request|e]; [|apply interactive_handle_ops].
  destruct (String.eqb (lower request) "exit"); [by intros [= <- <-]|].
  destruct (String.eqb (lower request) "report").
  - destruct (generate_pdf_report playwright_labels w (do_collect w m))
      as [[f|e] m2] eqn:Hgen.
    + intros [= <- <-]. eapply rtc_l; [apply op_collect|].
      eapply rtc_once, report_op, Hgen.
    + intros Hh. eapply rtc_l; [apply op_collect|].
      eapply rtc_l; [eapply report_op, Hgen|].
      eapply interactive_handle_ops, Hh.
  - intros Hrest. eapply rtc_l; [apply op_log|].
    eapply rtc_l; [apply op_emit; by eexists|].
    destruct (t_reply t) as [out|e].
    + injection Hrest as <- <-. apply rtc_once, op_log.
    + eapply interactive_handle_ops, Hrest.
Qed.

Lemma interactive_repl_ops script m fin m' :
  PlaywrightAgent.repl w script m = Some (fin, m') ->
  rtc (op w playwright_labels is_dispatch) m m'.
Proof.
  revert m. induction script as [|t script IH]; intros m; simpl; [done|].
  destruct (PlaywrightAgent.step w t m) as [[| |e] m1] eqn:Hstep;
    apply interactive_step_ops in Hstep.
  - intros Hrepl. etrans; [exact Hstep | by apply IH].
  - by intros [= <- <-].
  - by intros [= <- <-].
Qed.

Lemma interactive_on_error_ops L allowed e m pending m' :
  PlaywrightAgent.on_error w e m = (pending, m') -> rtc (op w L allowed) m m'.
Proof.
  unfold PlaywrightAgent.on_error. destruct (is_Exception e);
    intros [= <- <-]; [apply rtc_once, op_log | reflexivity].
Qed.

Lemma scripted_on_error_ops L allowed e m pending m' :
  LoginAutomationAgent.on_error w e m = (pending, m') ->
  rtc (op w L allowed) m m'.
Proof.
  unfold LoginAutomationAgent.on_error. destruct (is_Exception e);
    intros [= <- <-]; [apply rtc_once, op_log | reflexivity].
Qed.

Lemma interactive_run_ops startup created script m fin m' :
  PlaywrightAgent.run w startup created script m = Some (fin, m') ->
  rtc (op w playwright_labels on_process) m m'.
Proof.
  unfold PlaywrightAgent.run. destruct startup as [e|]; [|destruct created as [e|]].
  - destruct (PlaywrightAgent.on_error w e m) as [pending m1] eqn:Herr.
    intros [= Hfin]. etrans.
    + eapply interactive_on_error_ops, Herr.
    + eapply finally_ops, Hfin.
  - destruct (PlaywrightAgent.on_error w e _) as [pending m3] eqn:Herr.
    intros [= Hfin].
    emits EAcquire. eapply rtc_l; [apply op_log|]. emits ERelease.
    etrans; [eapply interactive_on_error_ops, Herr|].
    eapply finally_ops, Hfin.
  - destruct (PlaywrightAgent.repl w script _) as [[[|e] m4]|] eqn:Hrepl;
      [| |done];
      apply interactive_repl_ops in Hrepl;
      apply (ops_weaken _ _ on_process) in Hrepl;
      [|process_effect| |process_effect].
    + intros [= Hfin].
      emits EAcquire.
      eapply rtc_l; [apply op_log|]. eapply rtc_l; [apply op_log|].
      etrans; [exact Hrepl|].
      emits ERelease. eapply finally_ops, Hfin.
    + destruct (PlaywrightAgent.on_error w e (emit ERelease m4))
        as [pending m5] eqn:Herr.
      intros [= Hfin].
      emits EAcquire.
      eapply rtc_l; [apply op_log|]. eapply rtc_l; [apply op_log|].
      etrans; [exact Hrepl|].
      emits ERelease.
      etrans; [eapply interactive_on_error_ops, Herr|].
      eapply finally_ops, Hfin.
Qed.

Lemma scripted_run_ops startup created r url username password m :
  rtc (op w login_labels on_process) m
      (LoginAutomationAgent.run_login_automation
         w startup created r url username password m).2.
Proof.
  unfold LoginAutomationAgent.run_login_automation.
  destruct startup as [e|]; [|destruct created as [e|]].
  - destruct (LoginAutomationAgent.on_error w e m) as [pending m1] eqn:Herr.
    destruct (finally login_labels w pending m1) as [fin m2] eqn:Hfin. simpl.
    etrans; [eapply scripted_on_error_ops, Herr | eapply finally_ops, Hfin].
  - destruct (LoginAutomationAgent.on_error w e _) as [pending m3] eqn:Herr.
    destruct (finally login_labels w pending m3) as [fin m4] eqn:Hfin. simpl.
    emits EAcquire. eapply rtc_l; [apply op_log|]. emits ERelease.
    etrans; [eapply scripted_on_error_ops, Herr | eapply finally_ops, Hfin].
  - emits EAcquire.
    eapply rtc_l; [apply op_log|]. eapply rtc_l; [apply op_log|].
    eapply rtc_l; [apply op_log|]. emits (EDispatch _).
    destruct r as [out|e].
    + destruct (finally login_labels w Normally _) as [fin m7] eqn:Hfin. simpl.
      eapply rtc_l; [apply op_log|]. emits ERelease.
      eapply finally_ops, Hfin.
    + destruct (LoginAutomationAgent.on_error w e _) as [pending m6] eqn:Herr.
      destruct (finally login_labels w pending m6) as [fin m7] eqn:Hfin. simpl.
      emits ERelease.
      etrans; [eapply scripted_on_error_ops, Herr | eapply finally_ops, Hfin].
Qed.

End Operations.

(** ** The event log *)

Lemma lex_seconds (c1 c2 c3 c4 c5 c6 c7 : comparison) :
  lex c1 (lex c2 (lex c3 (lex c4 (lex c5 (lex c6 c7))))) <> Gt ->
  lex c1 (lex c2 (lex c3 (lex c4 (lex c5 (lex c6 Eq))))) <> Gt.
Proof. destruct c1, c2, c3, c4, c5, c6; simpl; congruence. Qed.

(** Dropping the microseconds keeps the order of two readings. *)
Lemma to_seconds_mono (a b : datetime) :
  dt_le a b -> dt_le (to_seconds a) (to_seconds b).
Proof.
  unfold dt_le, dt_leb, dt_compare, to_seconds. cbn [year month day hour
    minute second microsecond]. intros Hle.
  pose proof (lex_seconds (year a ?= year b)%N (month a ?= month b)%N
    (day a ?= day b)%N (hour a ?= hour b)%N (minute a ?= minute b)%N
    (second a ?= second b)%N (microsecond a ?= microsecond b)%N) as Hlex.
  change (0 ?= 0)%N with Eq.
  assert (Hnot : lex (year a ?= year b)%N
    (lex (month a ?= month b)%N (lex (day a ?= day b)%N
    (lex (hour a ?= hour b)%N (lex (minute a ?= minute b)%N
    (lex (second a ?= second b)%N (microsecond a ?= microsecond b)%N)))))
    <> Gt) by (intros Hgt; by rewrite Hgt in Hle).
  specialize (Hlex Hnot). clear Hle Hnot.
  match goal with
  | |- match ?c with _ => _ end = true => destruct c; congruence
  end.
Qed.

Lemma sorted_ticks_lookup (ticks : list nat) (i j a b : nat) :
  StronglySorted lt ticks -> i <= j ->
  ticks !! i = Some a -> ticks !! j = Some b -> a <= b.
Proof.
  intros Hsorted. revert i j.
  induction Hsorted as [|x ticks Hsorted IH Hall]; intros i j Hij Hi Hj.
  - done.
  - destruct i as [|i], j as [|j]; simpl in *.
    + simplify_eq. lia.
    + simplify_eq. apply list_elem_of_lookup_2 in Hj.
      rewrite Forall_forall in Hall. specialize (Hall _ Hj). lia.
    + lia.
    + eapply IH; [|done..]. lia.
  Qed.

(** With a clock that does not step back, a stamped log has
    non-decreasing timestamps. *)
Lemma stamped_nondecreasing (w : world) (n : nat) (log : list log_entry) :
  (forall i j, i <= j -> dt_le (w_now w i) (w_now w j)) ->
  stamped w n log -> nondecreasing log.
Proof.
  intros Hclock (ticks & Hsorted & _ & Hstamps) i j e1 e2 Hij Hi Hj.
  assert (Hti : (timestamp <$> log) !! i = Some (timestamp e1))
    by (by rewrite list_lookup_fmap, Hi).
  assert (Htj : (timestamp <$> log) !! j = Some (timestamp e2))
    by (by rewrite list_lookup_fmap, Hj).
  rewrite Hstamps, list_lookup_fmap in Hti, Htj.
  destruct (ticks !! i) as [a|] eqn:Ha; [|done].
  destruct (ticks !! j) as [b|] eqn:Hb; [|done].
  simpl in Hti, Htj. injection Hti as <-. injection Htj as <-.
  apply to_seconds_mono, Hclock.
  by eapply sorted_ticks_lookup.
Qed.

Section EventLog.

Context (w : world) (L : labels) (allowed : effect -> Prop).
Implicit Types m : machine.

(** What one operation does to the log and to the consultation
    count. *)
Lemma op_log_effect m m' :
  op w L allowed m m' ->
  tick m <= tick m' /\
  (session_log (self m') = session_log (self m) \/
   tick m' = S (tick m) /\
   exists act res err,
     session_log (self m')
     = session_log (self m)
       ++ [mk_entry (to_seconds (w_now w (tick m))) act res err]).
Proof.
  intros [act res err m0|m0|m0|ev m0 _]; simpl.
  - split; [lia|]. right. split; [done|]. by exists act, res, err.
  - split; [lia|]. by left.
  - unfold generate_pdf_report. destruct (w_build w (tick m0)); simpl;
      (split; [lia|by left]).
  - split; [lia|]. by left.
Qed.

Lemma stamped_weaken n n' log :
  n <= n' -> stamped w n log -> stamped w n' log.
Proof.
  intros Hn (ticks & Hsorted & Hlt & Hstamps). exists ticks.
  split_and!; [done| |done].
  eapply Forall_impl; [exact Hlt|]. simpl. intros. lia.
Qed.

Lemma stamped_snoc n log act res err :
  stamped w n log ->
  stamped w (S n) (log ++ [mk_entry (to_seconds (w_now w n)) act res err]).
Proof.
  intros (ticks & Hsorted & Hlt & Hstamps). exists (ticks ++ [n]).
  split_and!.
  - apply StronglySorted_app_2; [| done | repeat constructor].
    intros x1 x2 Hx1 ->%list_elem_of_singleton.
    rewrite Forall_forall in Hlt. by apply Hlt.
  - apply Forall_app. split; [|apply Forall_singleton; lia].
    eapply Forall_impl; [exact Hlt|]. simpl. intros. lia.
  - by rewrite !fmap_app, Hstamps.
Qed.

Lemma op_stamped m m' :
  op w L allowed m m' ->
  stamped w (tick m) (session_log (self m)) ->
  stamped w (tick m') (session_log (self m')).
Proof.
  intros Hop Hst. destruct (op_log_effect _ _ Hop) as [Hle [->|[-> Hnew]]].
  - by eapply stamped_weaken.
  - destruct Hnew as (act & res & err & ->). by apply stamped_snoc.
Qed.

Lemma ops_stamped m m' :
  rtc (op w L allowed) m m' ->
  stamped w (tick m) (session_log (self m)) ->
  stamped w (tick m') (session_log (self m')).
Proof. induction 1 as [|m1 m2 m3 Hop _ IH]; [done|]. intros. by eapply IH, op_stamped. Qed.

Lemma ops_log_prefix m m' :
  rtc (op w L allowed) m m' ->
  session_log (self m) `prefix_of` session_log (self m').
Proof.
  induction 1 as [|m1 m2 m3 Hop _ IH]; [done|].
  etrans; [|exact IH].
  destruct (op_log_effect _ _ Hop) as [_ [->|[_ (act & res & err & ->)]]];
    [done | by apply prefix_app_r].
Qed.

End EventLog.

Lemma stamped_start (w : world) :
  stamped w (tick (start w)) (session_log (self (start w))).
Proof. exists []. split_and!; [constructor | constructor | done]. Qed.

(** C7, as the specification states it, fails: the timestamp is the
    local wall clock, which the code reads and never checks.  In the
    night daylight saving time ends, the second entry of the log is
    stamped earlier than the first. *)
Lemma log_timestamps_step_back :
  exists m',
    PlaywrightAgent.run dst_world None None [exit_turn] (start dst_world)
      = Some (Normally, m') /\
    (fun e => strftime_log (timestamp e)) <$> session_log (self m')
      = ["2025-11-02 01:59:58"; "2025-11-02 01:00:03"] /\
    ~ nondecreasing (session_log (self m')).
Proof.
  eexists. split; [vm_compute; reflexivity|]. split; [reflexivity|].
  intros Hsorted.
  specialize (Hsorted 0 1 _ _ (Nat.le_succ_diag_r 0) eq_refl eq_refl).
  vm_compute in Hsorted. discriminate.
Qed.

(** C7, amended: the log is append-only, and its timestamps are the
    wall-clock readings at second resolution.  Every operation leaves
    the log as it is or appends one entry stamped with the current
    reading; a run only ever extends the log it started with; and
    when the wall clock never steps back, the timestamps of the log
    of a session never decrease. *)
Theorem event_log_append_only (w : world) :
  (forall L allowed m m',
     op w L allowed m m' ->
     session_log (self m') = session_log (self m) \/
     exists act res err,
       session_log (self m')
       = session_log (self m)
         ++ [mk_entry (to_seconds (w_now w (tick m))) act res err])
  /\ (forall startup created script m fin m',
        PlaywrightAgent.run w startup created script m = Some (fin, m') ->
        session_log (self m) `prefix_of` session_log (self m'))
  /\ (forall startup created r url username password m,
        session_log (self m)
        `prefix_of`
        session_log (self (LoginAutomationAgent.run_login_automation
                             w startup created r url username password m).2))
  /\ ((forall i j, i <= j -> dt_le (w_now w i) (w_now w j)) ->
      (forall startup created script fin m',
         PlaywrightAgent.run w startup created script (start w)
         = Some (fin, m') ->
         nondecreasing (session_log (self m')))
      /\ (forall startup created r url username password,
            nondecreasing
              (session_log
                 (self (LoginAutomationAgent.run_login_automation
                          w startup created r url username password
                          (start w)).2)))).
Proof.
  split_and!; [| | |intros Hclock; split].
  - intros L allowed m m' Hop.
    destruct (op_log_effect _ _ _ _ _ Hop) as [_ [Hsame|[_ Hnew]]]; eauto.
  - intros startup created script m fin m' Hrun.
    eapply ops_log_prefix, interactive_run_ops, Hrun.
  - intros startup created r url username password m.
    eapply ops_log_prefix, scripted_run_ops.
  - intros startup created script fin m' Hrun.
    eapply stamped_nondecreasing; [exact Hclock|].
    eapply ops_stamped; [eapply interactive_run_ops, Hrun|].
    apply stamped_start.
  - intros startup created r url username password.
    eapply stamped_nondecreasing; [exact Hclock|].
    eapply ops_stamped; [eapply scripted_run_ops|].
    apply stamped_start.
Qed.

Lemma event_log_append_only_witness :
  (forall i j, i <= j -> dt_le (w_now still_world i) (w_now still_world j))
  /\ nondecreasing
       (session_log (self (LoginAutomationAgent.run_login_automation
                             still_world None None (FinalOutput "Logged in")
                             "http://localhost:81/dashboard/" None None
                             (start still_world)).2)).
Proof.
  assert (Hclock : forall i j, i <= j ->
            dt_le (w_now still_world i) (w_now still_world j))
    by (intros i j _; reflexivity).
  split; [exact Hclock|].
  apply (event_log_append_only still_world). exact Hclock.
Defined.

(** ** Effects on the tool process and reports synthesized *)

Section Effects.

Context (w : world) (L : labels) (allowed : effect -> Prop).
Implicit Types m : machine.

(** No operation touches the fields that name the report. *)
Lemma op_report_filename m m' :
  op w L allowed m m' ->
  report_filename L (self m') = report_filename L (self m).
Proof.
  intros [act res err m0|m0|m0|ev m0 _]; try done.
  unfold generate_pdf_report. by destruct (w_build w (tick m0)).
Qed.

(** What one operation adds to the trace. *)
Lemma op_effects m m' :
  op w L allowed m m' ->
  exists body,
    trace m' = trace m ++ body /\
    Forall (fun ev => allowed ev \/ ev = ECollect \/
                      ev = ESynthesize (report_filename L (self m))) body.
Proof.
  intros [act res err m0|m0|m0|ev m0 Hev]; simpl.
  - exists []. by rewrite app_nil_r.
  - eexists; split; [done|]. apply Forall_singleton. auto.
  - unfold generate_pdf_report. destruct (w_build w (tick m0)); simpl;
      (eexists; split; [done|]; apply Forall_singleton; auto).
  - eexists; split; [done|]. apply Forall_singleton. auto.
Qed.

Lemma ops_effects m m' :
  rtc (op w L allowed) m m' ->
  report_filename L (self m') = report_filename L (self m)
  /\ exists body,
       trace m' = trace m ++ body /\
       Forall (fun ev => allowed ev \/ ev = ECollect \/
                         ev = ESynthesize (report_filename L (self m))) body.
Proof.
  induction 1 as [m|m1 m2 m3 Hop _ (IHname & body2 & IHtr & IHall)].
  - split; [done | exists []; by rewrite app_nil_r].
  - pose proof (op_report_filename _ _ Hop) as Hname.
    destruct (op_effects _ _ Hop) as (body1 & Htr & Hall).
    rewrite Hname in *. split; [done|].
    exists (body1 ++ body2). split.
    + by rewrite IHtr, Htr, app_assoc.
    + by apply Forall_app.
Qed.

Lemma finally_trace pending m fin m' :
  finally L w pending m = (fin, m') ->
  trace m' = trace m ++ [ECollect; ESynthesize (report_filename L (self m))].
Proof.
  unfold finally, generate_pdf_report.
  destruct (w_build w (tick (do_collect w m))); intros [= <- <-]; simpl;
    by rewrite <- app_assoc.
Qed.

End Effects.

Lemma interactive_on_error_trace (w : world) e m pending m' :
  PlaywrightAgent.on_error w e m = (pending, m') -> trace m' = trace m.
Proof.
  unfold PlaywrightAgent.on_error. by destruct (is_Exception e); intros [= <- <-].
Qed.

Lemma scripted_on_error_trace (w : world) e m pending m' :
  LoginAutomationAgent.on_error w e m = (pending, m') -> trace m' = trace m.
Proof.
  unfold LoginAutomationAgent.on_error.
  by destruct (is_Exception e); intros [= <- <-].
Qed.

(** The prompt loop neither acquires nor releases the tool process. *)
Lemma interactive_repl_trace (w : world) script m fin m' :
  PlaywrightAgent.repl w script m = Some (fin, m') ->
  exists body,
    trace m' = trace m ++ body /\ (ERelease ∉ body) /\ (EAcquire ∉ body).
Proof.
  intros Hrepl%interactive_repl_ops.
  destruct (ops_effects _ _ _ _ _ Hrepl) as (_ & body & Htr & Hall).
  exists body. split; [done|]. rewrite Forall_forall in Hall.
  split; intros [[request ?]|[?|?]]%Hall; discriminate.
Qed.

(** C1, as the specification states it, fails: the [finally] block
    stands outside the [async with] block, so the tool process is
    released when the block is left, before collection and synthesis
    begin. *)
Lemma release_precedes_report :
  exists m',
    PlaywrightAgent.run still_world None None [exit_turn] (start still_world)
      = Some (Normally, m') /\
    trace m'
      = [ EAcquire; ERelease; ECollect;
          ESynthesize "output/reports/playwright_session_20250601_120000.pdf" ] /\
    ~ teardown_as_specified (trace m').
Proof.
  eexists. split; [vm_compute; reflexivity|]. split; [reflexivity|].
  intros (body & f & Heq & _). apply (f_equal last) in Heq.
  change [ECollect; ESynthesize f; ERelease]
    with ([ECollect; ESynthesize f] ++ [ERelease]) in Heq.
  rewrite app_assoc, last_snoc in Heq. discriminate.
Qed.

(** C1, amended: however the teardown is entered (the user leaves, a
    request fails, the start of the tool process or the creation of
    the AI agent fails, or the run is interrupted), collection and
    then synthesis are the last two things the orchestrator does, in
    this order.  The tool process, when it was acquired, is released
    exactly once, and that release comes before the collection, not
    after the synthesis. *)
Theorem teardown_order (w : world) (startup created : option exn)
    (script : list turn) (r : reply) (url : string)
    (username password : option string) (m : machine)
    (fin : ending) (m' : machine)
    (Hfresh : trace m = [])
    (Hrun : PlaywrightAgent.run w startup created script m = Some (fin, m')) :
  teardown_as_coded (acquired startup) (trace m')
  /\ teardown_as_coded (acquired startup)
       (trace (LoginAutomationAgent.run_login_automation
                 w startup created r url username password m).2).
Proof.
  split.
  - revert Hrun. unfold PlaywrightAgent.run.
    destruct startup as [e|]; [|destruct created as [e|]]; simpl.
    + destruct (PlaywrightAgent.on_error w e m) as [pending m1] eqn:Herr.
      intros [= Hfin%finally_trace].
      apply interactive_on_error_trace in Herr.
      exists [], (report_filename playwright_labels (self m1)).
      split; [apply not_elem_of_nil|]. by rewrite Hfin, Herr, Hfresh.
    + destruct (PlaywrightAgent.on_error w e _) as [pending m3] eqn:Herr.
      intros [= Hfin%finally_trace].
      apply interactive_on_error_trace in Herr. simpl in Herr.
      rewrite Herr, Hfresh in Hfin.
      exists [], (report_filename playwright_labels (self m3)).
      split; [apply not_elem_of_nil|]. by rewrite Hfin.
    + destruct (PlaywrightAgent.repl w script _) as [[ending m4]|] eqn:Hrepl;
        [|done].
      apply interactive_repl_trace in Hrepl as (body & Htr & Hrel & _).
      simpl in Htr. rewrite Hfresh in Htr. simpl in Htr.
      destruct ending as [|e].
      * intros [= Hfin%finally_trace]. simpl in Hfin. rewrite Htr in Hfin.
        exists body, (report_filename playwright_labels (self m4)).
        split; [done|]. rewrite Hfin. simpl. by rewrite <- app_assoc.
      * destruct (PlaywrightAgent.on_error w e (emit ERelease m4))
          as [pending m5] eqn:Herr.
        intros [= Hfin%finally_trace].
        apply interactive_on_error_trace in Herr. simpl in Herr.
        rewrite Herr, Htr in Hfin.
        exists body, (report_filename playwright_labels (self m5)).
        split; [done|]. rewrite Hfin. simpl. by rewrite <- app_assoc.
  - clear Hrun. unfold LoginAutomationAgent.run_login_automation.
    destruct startup as [e|]; [|destruct created as [e|]]; simpl.
    + destruct (LoginAutomationAgent.on_error w e m) as [pending m1] eqn:Herr.
      destruct (finally login_labels w pending m1) as [fin' m2] eqn:Hfin. simpl.
      apply finally_trace in Hfin. apply scripted_on_error_trace in Herr.
      exists [], (report_filename login_labels (self m1)).
      split; [apply not_elem_of_nil|]. by rewrite Hfin, Herr, Hfresh.
    + destruct (LoginAutomationAgent.on_error w e _) as [pending m3] eqn:Herr.
      destruct (finally login_labels w pending m3) as [fin' m4] eqn:Hfin. simpl.
      apply finally_trace in Hfin. apply scripted_on_error_trace in Herr.
      simpl in Herr. rewrite Herr, Hfresh in Hfin.
      exists [], (report_filename login_labels (self m3)).
      split; [apply not_elem_of_nil|]. by rewrite Hfin.
    + destruct r as [out|e].
      * destruct (finally login_labels w Normally _) as [fin' m7] eqn:Hfin. simpl.
        apply finally_trace in Hfin. simpl in Hfin. rewrite Hfresh in Hfin.
        eexists [EDispatch _], _. split; [|rewrite Hfin; reflexivity].
        intros Hin%list_elem_of_singleton. discriminate.
      * destruct (LoginAutomationAgent.on_error w e _) as [pending m6] eqn:Herr.
        destruct (finally login_labels w pending m6) as [fin' m7] eqn:Hfin. simpl.
        apply finally_trace in Hfin. apply scripted_on_error_trace in Herr.
        simpl in Herr. rewrite Herr, Hfresh in Hfin.
        eexists [EDispatch _], _. split; [|rewrite Hfin; reflexivity].
        intros Hin%list_elem_of_singleton. discriminate.
Qed.

Lemma teardown_order_witness :
  trace (start still_world) = []
  /\ (exists m',
        PlaywrightAgent.run still_world None None [slow_turn; exit_turn]
                            (start still_world) = Some (Normally, m')
        /\ teardown_as_coded true (trace m')
        /\ teardown_as_coded true
             (trace (LoginAutomationAgent.run_login_automation
                       still_world None None (Raises TimeoutError)
                       "http://localhost:81/dashboard/" None None
                       (start still_world)).2)).
Proof.
  split; [reflexivity|].
  eexists. split; [vm_compute; reflexivity|].
  eapply (teardown_order still_world None None [slow_turn; exit_turn]
            (Raises TimeoutError) "http://localhost:81/dashboard/" None None
            (start still_world)).
  - reflexivity.
  - vm_compute. reflexivity.
Defined.

(** ** Reports written during an interactive session *)

Lemma syntheses_app (tr1 tr2 : list effect) :
  syntheses (tr1 ++ tr2) = syntheses tr1 + syntheses tr2.
Proof. unfold syntheses. by rewrite List.filter_app, length_app. Qed.

Lemma eqb_lower_false (request token : string) :
  lower request <> token -> String.eqb (lower request) token = false.
Proof. intros Hne. by apply String.eqb_neq. Qed.

(** An ordinary request writes no report. *)
Lemma plain_step (w : world) (t : turn) (m : machine) :
  plain_request t ->
  exists m',
    PlaywrightAgent.step w t m = (Continue, m') /\
    files m' = files m /\ syntheses (trace m') = syntheses (trace m) /\
    report_filename playwright_labels (self m')
    = report_filename playwright_labels (self m).
Proof.
  intros (request & Hprompt & Hexit & Hreport & Hreply).
  unfold PlaywrightAgent.step.
  rewrite Hprompt, (eqb_lower_false _ _ Hexit), (eqb_lower_false _ _ Hreport).
  destruct (t_reply t) as [out|[|msg|]]; [| | |done];
    (eexists; split; [reflexivity|]; simpl; split_and!; [done| |done]);
    unfold syntheses; rewrite List.filter_app, length_app; simpl; lia.
Qed.

Lemma plain_repl (w : world) (pre : list turn) (m : machine) :
  Forall plain_request pre ->
  exists m1,
    (forall rest, PlaywrightAgent.repl w (pre ++ rest) m
                  = PlaywrightAgent.repl w rest m1) /\
    files m1 = files m /\ syntheses (trace m1) = syntheses (trace m) /\
    report_filename playwright_labels (self m1)
    = report_filename playwright_labels (self m).
Proof.
  intros Hpre. revert m.
  induction Hpre as [|t pre Ht _ IH]; intros m.
  - by exists m.
  - destruct (plain_step w t m Ht) as (m0 & Hstep & Hfiles & Hsyn & Hname).
    destruct (IH m0) as (m1 & Hrepl & Hfiles1 & Hsyn1 & Hname1).
    exists m1. split_and!; [|congruence..].
    intros rest. simpl. by rewrite Hstep, Hrepl.
Qed.

(** When the document can be written, synthesis stores it under the
    report name and adds one synthesis to the trace. *)
Lemma generate_pdf_report_ok (L : labels) (w : world) (m : machine) :
  w_build w (tick m) = None ->
  exists m',
    generate_pdf_report L w m = (inl (report_filename L (self m)), m') /\
    self m' = self m /\
    tick m' = S (tick m) /\
    files m' = <[ report_filename L (self m)
                  := story L (w_now w (tick m)) (w_disk w (tick m)) (self m) ]>
               (files m) /\
    trace m' = trace m ++ [ESynthesize (report_filename L (self m))].
Proof.
  intros Hbuild. unfold generate_pdf_report. rewrite Hbuild.
  eexists. split; [reflexivity|]. by simpl.
Qed.

Lemma finally_ok (L : labels) (w : world) (pending : ending) (m : machine) :
  (forall t, w_build w t = None) ->
  exists m',
    finally L w pending m = (pending, m') /\
    files m' = <[ report_filename L (self m)
                  := story L (w_now w (pred (tick m'))) (w_disk w (pred (tick m')))
                           (self m') ]> (files m) /\
    syntheses (trace m') = S (syntheses (trace m)).
Proof.
  intros Hbuild. unfold finally.
  destruct (generate_pdf_report_ok L w (do_collect w m) (Hbuild _))
    as (m' & -> & Hself & Htick & Hfiles & Htrace).
  exists m'. split; [done|]. rewrite Hfiles, Htrace, Htick, Hself. simpl.
  split; [done|].
  unfold syntheses. rewrite !List.filter_app, !length_app. simpl. lia.
Qed.

(** C2, as the specification states it, fails: both reports of a
    session are written to the same file name, so after [report] and
    [exit] synthesis ran twice and one report file exists. *)
Lemma report_then_exit_leaves_one_file :
  exists m',
    PlaywrightAgent.run still_world None None [report_turn; exit_turn]
                        (start still_world) = Some (Normally, m') /\
    syntheses (trace m') = 2 /\
    size (files m') = 1 /\ size (files m') <> 2.
Proof.
  eexists. split; [vm_compute; reflexivity|].
  split; [reflexivity|]. split; [reflexivity|]. vm_compute. discriminate.
Qed.

(** C2, amended: in an interactive session where the user enters
    [report] and later [exit], with ordinary requests around them,
    report synthesis runs twice, both times for the one file name that
    embeds the session id; the second document replaces the first, so
    afterwards one report file exists, and it holds the report made on
    teardown. *)
Theorem on_demand_report_is_overwritten (w : world)
    (pre mid rest : list turn) (r x : string) (rep1 rep2 : reply)
    (m : machine)
    (Htrace : trace m = []) (Hfiles : files m = ∅)
    (Hpre : Forall plain_request pre) (Hmid : Forall plain_request mid)
    (Hr : lower r = "report") (Hx : lower x = "exit")
    (Hbuild : forall t, w_build w t = None) :
  exists m',
    PlaywrightAgent.run w None None
      (pre ++ mk_turn (Line r) rep1 :: mid ++ mk_turn (Line x) rep2 :: rest) m
      = Some (Normally, m')
    /\ syntheses (trace m') = 2
    /\ (forall f, ESynthesize f ∈ trace m' ->
                  f = report_filename playwright_labels (self m))
    /\ report_filename playwright_labels (self m)
       = reports_dir (self m) +:+ "/playwright_session_"
         +:+ session_id (self m) +:+ ".pdf"
    /\ dom (files m') = {[ report_filename playwright_labels (self m) ]}
    /\ size (files m') = 1
    /\ files m' !! report_filename playwright_labels (self m)
       = Some (story playwright_labels (w_now w (pred (tick m')))
                     (w_disk w (pred (tick m'))) (self m')).
Proof.
  set (F := report_filename playwright_labels (self m)).
  set (m3 := do_log w "AI Agent Created" (Some "Agent initialized successfully")
               None (do_log w "MCP Server Started"
                       (Some "Server initialized successfully") None
                       (emit EAcquire m))).
  destruct (plain_repl w pre m3 Hpre) as (m1 & Hrepl1 & Hf1 & Hs1 & Hn1).
  destruct (generate_pdf_report_ok playwright_labels w (do_collect w m1)
              (Hbuild _)) as (m2 & Hgen & Hself2 & Htick2 & Hf2 & Ht2).
  destruct (plain_repl w mid m2 Hmid) as (m4 & Hrepl2 & Hf4 & Hs4 & Hn4).
  destruct (finally_ok playwright_labels w Normally (emit ERelease m4) Hbuild)
    as (m' & Hfin & Hf' & Hs').
  assert (Hrun : PlaywrightAgent.run w None None
            (pre ++ mk_turn (Line r) rep1 :: mid ++ mk_turn (Line x) rep2 :: rest) m
            = Some (Normally, m')).
  { unfold PlaywrightAgent.run. fold m3. rewrite Hrepl1.
    cbn [PlaywrightAgent.repl]. unfold PlaywrightAgent.step at 1.
    cbn [t_prompt]. rewrite Hr. cbn [String.eqb Ascii.eqb Bool.eqb].
    rewrite Hgen, Hrepl2.
    cbn [PlaywrightAgent.repl]. unfold PlaywrightAgent.step at 1.
    cbn [t_prompt]. rewrite Hx. cbn [String.eqb Ascii.eqb Bool.eqb].
    by rewrite Hfin. }
  assert (Hname1 : report_filename playwright_labels (self (do_collect w m1)) = F)
    by (etrans; [|exact Hn1]; reflexivity).
  assert (Hname4 : report_filename playwright_labels (self m4) = F)
    by (by rewrite Hn4, Hself2).
  assert (Hfinal : files m'
            = <[ F := story playwright_labels (w_now w (pred (tick m')))
                        (w_disk w (pred (tick m'))) (self m') ]>
              (<[ F := story playwright_labels (w_now w (tick (do_collect w m1)))
                          (w_disk w (tick (do_collect w m1)))
                          (self (do_collect w m1)) ]> ∅)).
  { rewrite Hf'.
    change (self (emit ERelease m4)) with (self m4).
    change (files (emit ERelease m4)) with (files m4).
    rewrite Hname4, Hf4, Hf2, Hname1.
    change (files (do_collect w m1)) with (files m1). rewrite Hf1.
    change (files m3) with (files m). by rewrite Hfiles. }
  exists m'. split_and!.
  - exact Hrun.
  - rewrite Hs'. simpl. unfold syntheses in *.
    rewrite List.filter_app, length_app, Hs4, Ht2. simpl.
    rewrite !List.filter_app, !length_app, Hs1. simpl. rewrite Htrace. simpl. lia.
  - intros f Hf. apply interactive_run_ops in Hrun.
    destruct (ops_effects _ _ _ _ _ Hrun) as (_ & body & Hbody & Hall).
    rewrite Hbody, Htrace in Hf. simpl in Hf.
    rewrite Forall_forall in Hall.
    unfold F.
    destruct (Hall _ Hf) as [[?|[?|[request ?]]]|[?|?]]; congruence.
  - reflexivity.
  - by rewrite Hfinal, insert_insert_eq, insert_empty, dom_singleton_L.
  - rewrite Hfinal, insert_insert_eq, insert_empty. apply map_size_singleton.
  - rewrite Hfinal. apply lookup_insert_eq.
Qed.

Lemma on_demand_report_is_overwritten_witness :
  exists m',
    PlaywrightAgent.run still_world None None
      ([request_turn] ++ report_turn :: [slow_turn] ++ exit_turn :: [])
      (start still_world) = Some (Normally, m')
    /\ syntheses (trace m') = 2
    /\ size (files m') = 1.
Proof.
  assert (Hplain : plain_request request_turn /\ plain_request slow_turn).
  { split; eexists; (split; [reflexivity|]);
      split_and!; vm_compute; discriminate. }
  destruct (on_demand_report_is_overwritten still_world
              [request_turn] [slow_turn] [] "report" "exit"
              (Raises TimeoutError) (Raises TimeoutError) (start still_world)
              eq_refl eq_refl
              (Forall_cons_2 _ _ _ (proj1 Hplain) (Forall_nil_2 _))
              (Forall_cons_2 _ _ _ (proj2 Hplain) (Forall_nil_2 _))
              eq_refl eq_refl (fun _ => eq_refl))
    as (m' & Hrun & Hsyn & _ & _ & _ & Hsize & _).
  exists m'. split_and!; [exact Hrun | exact Hsyn | exact Hsize].
Defined.

(** ** Failure to start the tool process *)

(** C4, as the specification states it, fails: the report is built
    in the [finally] block, outside every [except] clause.  When
    starting the tool process fails and the report cannot be written
    either, the run logs its one entry, leaves no report behind and
    ends with the exception of the build. *)
Lemma startup_failure_without_report :
  exists m',
    PlaywrightAgent.run readonly_world (Some (Exception "spawn npx ENOENT"))
                        None [request_turn; exit_turn] (start readonly_world)
      = Some (Raising (Exception "Permission denied"), m')
    /\ session_log (self m')
       = [ mk_entry noon "MCP Server Error" None (Some "spawn npx ENOENT") ]
    /\ trace m'
       = [ ECollect;
           ESynthesize "output/reports/playwright_session_20250601_120000.pdf" ]
    /\ files m' = ∅.
Proof. eexists. split; [vm_compute; reflexivity|]. repeat split. Qed.

(** C4, amended: when entering the [async with] block raises an
    exception (the process cannot be spawned, the handshake fails),
    nothing is acquired and no request is dispatched: the run goes
    straight to the teardown.  The log then holds exactly one entry,
    the [MCP Server Error] entry with the text of the failure, and the
    report is synthesized over that log: its story counts one action
    and shows that single entry, with its action, its time and, when
    the failure has a text, its error line.  The report is on disk
    when the document build does not raise; when it raises, no report
    is written and the run ends with that exception. *)
Theorem startup_failure_single_event (w : world) (e : exn)
    (created : option exn) (script : list turn)
    (Hexception : is_Exception e = true) :
  exists fin m',
    PlaywrightAgent.run w (Some e) created script (start w) = Some (fin, m')
    /\ session_log (self m')
       = [ mk_entry (to_seconds (w_now w 1)) "MCP Server Error" None
                    (Some (str e)) ]
    /\ length (List.filter (fun entry => String.eqb (action entry) "MCP Server Error")
                           (session_log (self m'))) = 1
    /\ trace m'
       = [ ECollect;
           ESynthesize (report_filename playwright_labels (self (start w))) ]
    /\ session_screenshots (self m')
       = session_screenshots (collect_screenshots (w_disk w 2) (init (w_now w 0)))
    /\ story playwright_labels (w_now w 3) (w_disk w 3) (self m')
       = [ Paragraph "Playwright Automation Report" CustomTitle; Spacer 1 12;
           Paragraph ("<b>Session ID:</b> " +:+ strftime_id (w_now w 0))
                     SessionInfo;
           Paragraph ("<b>Generated:</b> " +:+ strftime_log (w_now w 3))
                     SessionInfo;
           Paragraph "<b>Total Actions:</b> 1" SessionInfo;
           Spacer 1 20;
           Paragraph "Actions Log" Heading2; Spacer 1 12;
           Paragraph "<b>Action 1:</b> MCP Server Error" ActionHeader;
           Paragraph ("<b>Time:</b> " +:+ strftime_log (to_seconds (w_now w 1)))
                     Normal ]
         ++ (if String.eqb (str e) "" then []
             else [ Paragraph ("<b>Error:</b> " +:+ str e) ErrorStyle ])
         ++ [ Spacer 1 12 ]
         ++ screenshots_section (w_disk w 3) (session_screenshots (self m'))
    /\ (w_build w 3 = None ->
        fin = Normally /\
        files m' !! report_filename playwright_labels (self (start w))
        = Some (story playwright_labels (w_now w 3) (w_disk w 3) (self m')))
    /\ (forall msg, w_build w 3 = Some msg ->
        fin = Raising (Exception msg) /\ files m' = ∅).
Proof.
  unfold PlaywrightAgent.run, PlaywrightAgent.on_error. rewrite Hexception.
  unfold finally, generate_pdf_report.
  assert (Hstory : forall shots,
    story playwright_labels (w_now w 3) (w_disk w 3)
      (mk_agent (strftime_id (w_now w 0)) "output" "output/screenshots"
                "output/reports" shots
                [ mk_entry (to_seconds (w_now w 1)) "MCP Server Error" None
                           (Some (str e)) ])
    = [ Paragraph "Playwright Automation Report" CustomTitle; Spacer 1 12;
        Paragraph ("<b>Session ID:</b> " +:+ strftime_id (w_now w 0))
                  SessionInfo;
        Paragraph ("<b>Generated:</b> " +:+ strftime_log (w_now w 3))
                  SessionInfo;
        Paragraph "<b>Total Actions:</b> 1" SessionInfo;
        Spacer 1 20;
        Paragraph "Actions Log" Heading2; Spacer 1 12;
        Paragraph "<b>Action 1:</b> MCP Server Error" ActionHeader;
        Paragraph ("<b>Time:</b> " +:+ strftime_log (to_seconds (w_now w 1)))
                  Normal ]
      ++ (if String.eqb (str e) "" then []
          else [ Paragraph ("<b>Error:</b> " +:+ str e) ErrorStyle ])
      ++ [ Spacer 1 12 ]
      ++ screenshots_section (w_disk w 3) shots).
  { intros shots. unfold story, entry_block. simpl.
    destruct (String.eqb (str e) ""); simpl; by rewrite ?app_nil_r. }
  destruct (w_build w (tick (do_collect w _))) as [msg|] eqn:Hbuild;
    do 2 eexists; (split; [reflexivity|]); simpl in Hbuild |- *;
    (split_and!; [reflexivity | reflexivity | reflexivity | reflexivity
                 | apply Hstory | | ]).
  - intros Hok. congruence.
  - intros msg' Hmsg. split; [congruence|done].
  - intros _. split; [done|]. apply lookup_insert_eq.
  - intros msg Hmsg. congruence.
Qed.

Lemma startup_failure_single_event_witness :
  exists fin m',
    PlaywrightAgent.run still_world (Some (Exception "spawn npx ENOENT"))
                        None [request_turn; exit_turn] (start still_world)
      = Some (fin, m')
    /\ session_log (self m')
       = [ mk_entry noon "MCP Server Error" None (Some "spawn npx ENOENT") ]
    /\ Paragraph "<b>Error:</b> spawn npx ENOENT" ErrorStyle
       ∈ story playwright_labels noon plain_disk (self m')
    /\ fin = Normally
    /\ size (files m') = 1.
Proof.
  destruct (startup_failure_single_event still_world
              (Exception "spawn npx ENOENT") None [request_turn; exit_turn]
              eq_refl)
    as (fin & m' & Hrun & Hlog & _ & _ & _ & Hstory & Hfile & _).
  destruct (Hfile eq_refl) as [Hfin _].
  exists fin, m'. split; [exact Hrun|]. split; [exact Hlog|].
  split.
  { change (w_now still_world 3) with noon in Hstory.
    change (w_disk still_world 3) with plain_disk in Hstory.
    rewrite Hstory. apply elem_of_app. right. apply elem_of_app. left.
    apply list_elem_of_here. }
  split; [exact Hfin|].
  vm_compute in Hrun. injection Hrun as _ <-. reflexivity.
Defined.

(** ** Requests that exceed their time bound *)

(** In the interactive agent a timed-out request appends the
    [Request Timeout] entry and the prompt loop goes on to the next
    turn. *)
Lemma interactive_timeout_continues (w : world) (t : turn) (request : string)
    (m : machine) (script : list turn) :
  t_prompt t = Line request ->
  lower request <> "exit" -> lower request <> "report" ->
  t_reply t = Raises TimeoutError ->
  exists m',
    PlaywrightAgent.step w t m = (Continue, m')
    /\ session_log (self m')
       = session_log (self m)
         ++ [ mk_entry (to_seconds (w_now w (tick m)))
                       ("User Request: " +:+ request) None None;
              mk_entry (to_seconds (w_now w (S (tick m)))) "Request Timeout" None
                       (Some "Request timed out after 2 minutes") ]
    /\ PlaywrightAgent.repl w (t :: script) m = PlaywrightAgent.repl w script m'.
Proof.
  intros Hprompt Hexit Hreport Hreply.
  unfold PlaywrightAgent.repl, PlaywrightAgent.step.
  rewrite Hprompt, (eqb_lower_false _ _ Hexit), (eqb_lower_false _ _ Hreport),
    Hreply.
  eexists. split; [reflexivity|]. split; [|reflexivity].
  simpl. by rewrite <- app_assoc.
Qed.

(** C3 at the failing input: the scripted agent has one [except]
    clause for every exception.  When the request exceeds its bound of
    three minutes the entry appended is the generic
    [Login Automation Error] entry, its error text is the empty text
    of the timeout exception, the report shows no error line for it,
    and the whole run is the run of a request that failed with an
    exception without text.  The run does end in the teardown. *)
Theorem scripted_timeout_logs_generic_error (w : world) (url : string)
    (username password : option string) :
  let timed_out :=
    LoginAutomationAgent.run_login_automation
      w None None (Raises TimeoutError) url username password (start w) in
  let failed :=
    LoginAutomationAgent.run_login_automation
      w None None (Raises (Exception "")) url username password (start w) in
  let entry :=
    mk_entry (to_seconds (w_now w 4)) "Login Automation Error" None (Some "") in
  session_log (self timed_out.2)
  = [ mk_entry (to_seconds (w_now w 1)) "MCP Server Started"
               (Some "Server initialized successfully") None;
      mk_entry (to_seconds (w_now w 2)) "AI Agent Created"
               (Some "Agent initialized successfully") None;
      mk_entry (to_seconds (w_now w 3)) "Login Automation Started"
               (Some ("URL: " +:+ url)) None;
      entry ]
  /\ timed_out = failed
  /\ entry_block login_labels 4 entry
     = [ Paragraph "<b>Step 4:</b> Login Automation Error" ActionHeader;
         Paragraph ("<b>Time:</b> " +:+ strftime_log (to_seconds (w_now w 4)))
                   Normal;
         Spacer 1 12 ]
  /\ trace timed_out.2
     = [ EAcquire; EDispatch (LoginAutomationAgent.login_command url username password);
         ERelease; ECollect;
         ESynthesize (report_filename login_labels (self (start w))) ].
Proof.
  unfold LoginAutomationAgent.run_login_automation,
    LoginAutomationAgent.on_error, finally, generate_pdf_report.
  simpl. destruct (w_build w 6); simpl; repeat split.
Qed.

(** ** Truncation of the result text *)

Lemma slice_to_split (n : nat) (s : string) :
  exists rest, s = slice_to n s +:+ rest /\ begins_character rest.
Proof.
  revert n. induction s as [|c s IH]; intros n.
  - by exists EmptyString.
  - cbn [slice_to]. destruct (is_continuation c) eqn:Hc.
    + destruct (IH n) as (rest & Hrest & Hb). exists rest.
      split; [|done].
      change (String c s = String c (slice_to n s +:+ rest)). by f_equal.
    + destruct n as [|n].
      * exists (String c s). split; [done|exact Hc].
      * destruct (IH n) as (rest & Hrest & Hb). exists rest.
        split; [|done].
        change (String c s = String c (slice_to n s +:+ rest)). by f_equal.
Qed.

Lemma len_slice_to (n : nat) (s : string) :
  len (slice_to n s) = n `min` len s.
Proof.
  revert n. induction s as [|c s IH]; intros n.
  - simpl. lia.
  - cbn [slice_to len]. destruct (is_continuation c) eqn:Hc.
    + cbn [len]. by rewrite Hc, IH.
    + destruct n as [|n]; [done|]. cbn [len]. rewrite Hc, IH. lia.
Qed.

Lemma len_append (s1 s2 : string) : len (s1 +:+ s2) = len s1 + len s2.
Proof.
  induction s1 as [|c s1 IH]; [done|].
  change (len (String c (s1 +:+ s2)) = len (String c s1) + len s2).
  cbn [len]. destruct (is_continuation c); lia.
Qed.

(** The text stored for a controller output, said on the number of
    characters of the output. *)
Lemma truncate_spec (n : nat) (s : string) :
  (len s <= n -> truncate n s = s) /\
  (n < len s ->
   exists head rest,
     s = head +:+ rest /\ len head = n /\ begins_character rest /\
     truncate n s = head +:+ "...").
Proof.
  unfold truncate. split; intros Hlen.
  - destruct (Nat.ltb_spec n (len s)); [lia|done].
  - destruct (Nat.ltb_spec n (len s)); [|lia].
    destruct (slice_to_split n s) as (rest & Hrest & Hb).
    exists (slice_to n s), rest. split_and!; [done| |done|done].
    rewrite len_slice_to. lia.
Qed.

(** The stored text is never longer than the bound and three dots. *)
Lemma truncate_length (n : nat) (s : string) : len (truncate n s) <= n + 3.
Proof.
  unfold truncate. destruct (Nat.ltb_spec n (len s)); [|lia].
  rewrite len_append, len_slice_to.
  change (len "...") with 3. lia.
Qed.

(** Characters, not bytes, are counted: an output of 150 accented
    letters takes 300 bytes and is stored whole. *)
Lemma accented_output_kept_whole :
  String.length accented_output = 300 /\ len accented_output = 150 /\
  truncate 200 accented_output = accented_output.
Proof. by vm_compute. Qed.

(** A log entry with a result has its result paragraph, with the whole
    text, in the report. *)
Lemma entry_block_result (L : labels) (i : nat) (e : log_entry) (r : string) :
  result e = Some r -> r <> "" ->
  Paragraph ("<b>Result:</b> " +:+ r) Normal ∈ entry_block L i e.
Proof.
  intros Hres Hne. unfold entry_block. rewrite Hres. simpl.
  destruct (String.eqb_spec r ""); [done|]. simpl.
  do 2 apply list_elem_of_further. apply list_elem_of_here.
Qed.

Lemma story_result (L : labels) (now : datetime) (d : disk) (a : agent)
    (e : log_entry) (r : string) :
  e ∈ session_log a -> result e = Some r -> r <> "" ->
  Paragraph ("<b>Result:</b> " +:+ r) Normal ∈ story L now d a.
Proof.
  intros [i Hi]%list_elem_of_lookup_1 Hres Hne. unfold story.
  apply elem_of_app. right. apply elem_of_app. left.
  apply list_elem_of_In, in_concat.
  exists (entry_block L (S i) e). split.
  - apply list_elem_of_In.
    apply (list_elem_of_lookup_2 _ i). by rewrite list_lookup_imap, Hi.
  - by apply list_elem_of_In, entry_block_result.
Qed.

(** C8: the result text is cut once, when the entry is built.  For a
    request that completes, the entry appended holds the whole output
    when it has at most 200 characters (interactive agent) or 500
    characters (scripted agent), and otherwise its first 200 or 500
    characters, none of them cut in two, followed by three dots; the
    report shows the stored text of every entry whole. *)
Theorem result_truncated_before_append (w : world) (t : turn)
    (request out : string) (m : machine) (url : string)
    (username password : option string)
    (Hprompt : t_prompt t = Line request)
    (Hexit : lower request <> "exit") (Hreport : lower request <> "report")
    (Hreply : t_reply t = FinalOutput out) :
  (exists m' stored,
      PlaywrightAgent.step w t m = (Continue, m')
      /\ session_log (self m')
         = session_log (self m)
           ++ [ mk_entry (to_seconds (w_now w (tick m)))
                         ("User Request: " +:+ request) None None;
                mk_entry (to_seconds (w_now w (S (tick m)))) "Request Completed"
                         (Some stored) None ]
      /\ (len out <= 200 -> stored = out)
      /\ (200 < len out ->
          exists head rest, out = head +:+ rest /\ len head = 200
                            /\ begins_character rest
                            /\ stored = head +:+ "..."))
  /\ (exists older logged stored,
        session_log (self (LoginAutomationAgent.run_login_automation
                             w None None (FinalOutput out) url username password m).2)
        = older ++ [logged]
        /\ action logged = "Login Automation Completed"
        /\ result logged = Some stored
        /\ (len out <= 500 -> stored = out)
        /\ (500 < len out ->
            exists head rest, out = head +:+ rest /\ len head = 500
                              /\ begins_character rest
                              /\ stored = head +:+ "..."))
  /\ (forall L now d a e r,
        e ∈ session_log a -> result e = Some r -> r <> "" ->
        Paragraph ("<b>Result:</b> " +:+ r) Normal ∈ story L now d a).
Proof.
  split_and!.
  - unfold PlaywrightAgent.step.
    rewrite Hprompt, (eqb_lower_false _ _ Hexit), (eqb_lower_false _ _ Hreport),
      Hreply.
    do 2 eexists. split; [reflexivity|]. split; [simpl; by rewrite <- app_assoc|].
    apply truncate_spec.
  - unfold LoginAutomationAgent.run_login_automation, finally,
      generate_pdf_report.
    destruct (w_build w _); simpl;
      (do 3 eexists; split; [reflexivity|]; split; [reflexivity|];
       split; [reflexivity|]; apply truncate_spec).
  - intros L now d a e r. apply story_result.
Qed.

Lemma result_truncated_before_append_witness :
  exists m' stored head rest,
    PlaywrightAgent.step still_world long_turn (start still_world)
      = (Continue, m')
    /\ session_log (self m')
       = session_log (self (start still_world))
         ++ [ mk_entry (to_seconds noon) "User Request: open example.com"
                       None None;
              mk_entry (to_seconds noon) "Request Completed" (Some stored) None ]
    /\ len long_output = 210
    /\ long_output = head +:+ rest /\ len head = 200 /\ begins_character rest
    /\ stored = head +:+ "...".
Proof.
  destruct (result_truncated_before_append still_world long_turn
              "open example.com" long_output (start still_world)
              "http://localhost:81/dashboard/" None None eq_refl)
    as [(m' & stored & Hstep & Hlog & _ & Hlong) _].
  - vm_compute. discriminate.
  - vm_compute. discriminate.
  - reflexivity.
  - destruct Hlong as (head & rest & Hout & Hhead & Hrest & Hstored).
    { vm_compute. lia. }
    exists m', stored, head, rest.
    split; [exact Hstep|]. split; [exact Hlog|]. split; [reflexivity|].
    split; [exact Hout|]. split; [exact Hhead|]. split; [exact Hrest|].
    exact Hstored.
Defined.

(** ** Commands at the prompt *)

Lemma N_of_lower_ascii (c : ascii) :
  N_of_ascii (lower_ascii c)
  = (if (65 <=? N_of_ascii c)%N && (N_of_ascii c <=? 90)%N
     then N_of_ascii c + 32 else N_of_ascii c)%N.
Proof.
  unfold lower_ascii. pose proof (N_ascii_bounded c) as Hc.
  destruct ((65 <=? N_of_ascii c)%N && (N_of_ascii c <=? 90)%N) eqn:Hup; [|done].
  apply andb_prop in Hup as [_ Hle%N.leb_le].
  apply N_ascii_embedding. lia.
Qed.

(** Two characters have the same lower-case form exactly when they
    are equal or the two cases of one letter. *)
Lemma same_letter_lower (a b : ascii) :
  same_letter a b = true <-> lower_ascii a = lower_ascii b.
Proof.
  assert (Hinj : lower_ascii a = lower_ascii b <->
                 N_of_ascii (lower_ascii a) = N_of_ascii (lower_ascii b)).
  { split; [by intros ->|]. intros Heq.
    by rewrite <- (ascii_N_embedding (lower_ascii a)), Heq, ascii_N_embedding. }
  rewrite Hinj, !N_of_lower_ascii. unfold same_letter.
  pose proof (N_ascii_bounded a). pose proof (N_ascii_bounded b).
  rewrite !orb_true_iff, !andb_true_iff, !N.eqb_eq, !N.leb_le.
  destruct (N.leb_spec 65 (N_of_ascii a)), (N.leb_spec (N_of_ascii a) 90),
    (N.leb_spec 65 (N_of_ascii b)), (N.leb_spec (N_of_ascii b) 90);
    simpl; lia.
Qed.

Lemma same_up_to_case_lower (s t : string) :
  same_up_to_case s t = true <-> lower s = lower t.
Proof.
  revert t. induction s as [|a s IH]; intros [|b t]; simpl; try done.
  rewrite andb_true_iff, same_letter_lower, IH. split.
  - by intros [-> ->].
  - by intros [= -> ->].
Qed.

(** A line that is not a token up to letter case does not lower to
    the token. *)
Lemma not_token (request token : string) :
  lower token = token ->
  same_up_to_case request token = false -> lower request <> token.
Proof.
  intros Htoken Hcase Hlow. rewrite <- Htoken in Hlow.
  apply same_up_to_case_lower in Hlow. congruence.
Qed.

(** C9: the prompt recognizes its tokens by comparing the whole
    lower-cased line.  A line that differs from [exit] and from
    [report] by more than letter case (surrounding blanks included) is
    no command: both interactive agents hand it, as it was typed, to
    the controller, and the loop is not left and no report is
    written. *)
Theorem only_whole_tokens_are_commands (w : world) (t : turn)
    (request : string) (m : machine) (tr : list effect)
    (Hprompt : t_prompt t = Line request)
    (Hexit : same_up_to_case request "exit" = false)
    (Hreport : same_up_to_case request "report" = false) :
  (exists c m',
      PlaywrightAgent.step w t m = (c, m')
      /\ c <> Break
      /\ trace m' = trace m ++ [EDispatch request]
      /\ files m' = files m
      /\ exists older,
           session_log (self m')
           = session_log (self m)
             ++ mk_entry (to_seconds (w_now w (tick m)))
                         ("User Request: " +:+ request) None None :: older)
  /\ (exists c, Agent.step t tr = (c, tr ++ [EDispatch request]) /\ c <> Break).
Proof.
  apply (not_token _ "exit" eq_refl) in Hexit.
  apply (not_token _ "report" eq_refl) in Hreport.
  split.
  - unfold PlaywrightAgent.step.
    rewrite Hprompt, (eqb_lower_false _ _ Hexit), (eqb_lower_false _ _ Hreport).
    destruct (t_reply t) as [out|[|msg|]];
      (do 2 eexists; split; [reflexivity|]; split; [done|];
       split; [reflexivity|]; split; [reflexivity|]; simpl;
       eexists; rewrite <- ?app_assoc; reflexivity).
  - unfold Agent.step. rewrite Hprompt, (eqb_lower_false _ _ Hexit).
    destruct (t_reply t) as [out|[|msg|]]; simpl; eexists; split; done.
Qed.

Lemma only_whole_tokens_are_commands_witness :
  exists c m',
    PlaywrightAgent.step still_world (mk_turn (Line "exit ") (FinalOutput "Bye"))
                         (start still_world) = (c, m')
    /\ c <> Break
    /\ trace m' = [EDispatch "exit "].
Proof.
  destruct (only_whole_tokens_are_commands still_world
              (mk_turn (Line "exit ") (FinalOutput "Bye")) "exit "
              (start still_world) [] eq_refl eq_refl eq_refl)
    as [(c & m' & Hstep & Hc & Htrace & _) _].
  exists c, m'. split; [exact Hstep|]. split; [exact Hc|exact Htrace].
Defined.

(** The other direction: a line that is a token up to letter case is
    the command, and nothing is dispatched. *)
Lemma tokens_are_commands (w : world) (t : turn) (request : string)
    (m : machine) :
  t_prompt t = Line request ->
  (same_up_to_case request "exit" = true ->
   PlaywrightAgent.step w t m = (Break, m))
  /\ (same_up_to_case request "report" = true ->
      exists c m',
        PlaywrightAgent.step w t m = (c, m') /\
        trace m'
        = trace m ++ [ ECollect;
                       ESynthesize (report_filename playwright_labels (self m)) ]).
Proof.
  intros Hprompt. unfold PlaywrightAgent.step. rewrite Hprompt.
  split; intros Hlow%same_up_to_case_lower; simpl in Hlow; rewrite Hlow.
  - reflexivity.
  - cbn [String.eqb Ascii.eqb Bool.eqb]. unfold generate_pdf_report.
    destruct (w_build w _); simpl; do 2 eexists;
      (split; [reflexivity|]); simpl; by rewrite <- app_assoc.
Qed.

(** ** The report command *)

(** C10, as the specification states it, fails: the [report] branch
    runs inside the [try] of the prompt loop, so when the document
    cannot be built the [except Exception] clause appends a
    [Request Error] entry to the log. *)
Lemma failed_report_command_is_logged :
  exists m',
    PlaywrightAgent.step readonly_world report_turn (start readonly_world)
      = (Continue, m')
    /\ session_log (self (start readonly_world)) = []
    /\ session_log (self m')
       = [ mk_entry noon "Request Error" None (Some "Permission denied") ]
    /\ session_log (self m') <> session_log (self (start readonly_world)).
Proof.
  eexists. split; [vm_compute; reflexivity|].
  split; [reflexivity|]. split; [reflexivity|]. discriminate.
Qed.

(** C10, amended: the [report] command collects the artifacts and
    synthesizes a report whose total counts the entries logged before
    the command, never the report generation itself.  When the
    document is built the command leaves the log as it was; when the
    document build raises, no report is written and the error handler
    of the prompt loop appends one [Request Error] entry.  In both
    cases the session goes on. *)
Theorem report_command_and_log (w : world) (t : turn) (request : string)
    (m : machine)
    (Hprompt : t_prompt t = Line request)
    (Hreport : lower request = "report") :
  let name := report_filename playwright_labels (self m) in
  let doc := story playwright_labels (w_now w (S (tick m)))
                   (w_disk w (S (tick m)))
                   (collect_screenshots (w_disk w (tick m)) (self m)) in
  exists m',
    PlaywrightAgent.step w t m = (Continue, m')
    /\ trace m' = trace m ++ [ECollect; ESynthesize name]
    /\ Paragraph ("<b>Total Actions:</b> "
                  +:+ pretty (length (session_log (self m)))) SessionInfo ∈ doc
    /\ match w_build w (S (tick m)) with
       | None =>
           session_log (self m') = session_log (self m)
           /\ files m' = <[ name := doc ]> (files m)
       | Some msg =>
           session_log (self m')
           = session_log (self m)
             ++ [ mk_entry (to_seconds (w_now w (S (S (tick m)))))
                           "Request Error" None (Some msg) ]
           /\ files m' = files m
       end.
Proof.
  unfold PlaywrightAgent.step. rewrite Hprompt, Hreport.
  cbn [String.eqb Ascii.eqb Bool.eqb]. unfold generate_pdf_report.
  cbn [tick do_collect].
  destruct (w_build w (S (tick m))) as [msg|];
    (eexists; split; [reflexivity|]; simpl; split; [by rewrite <- app_assoc|];
     split; [|done]);
    unfold story; simpl; do 4 apply list_elem_of_further; apply list_elem_of_here.
Qed.

Lemma report_command_and_log_witness :
  exists m',
    PlaywrightAgent.step still_world report_turn (start still_world)
      = (Continue, m')
    /\ session_log (self m') = session_log (self (start still_world))
    /\ size (files m') = 1.
Proof.
  destruct (report_command_and_log still_world report_turn "report"
              (start still_world) eq_refl eq_refl)
    as (m' & Hstep & _ & _ & Hlog & Hfiles).
  exists m'. split; [exact Hstep|]. split; [exact Hlog|].
  rewrite Hfiles. reflexivity.
Defined.

(** * Further properties of the agents *)

(** ** What a collection holds *)

Lemma add_files_elem (files shots : list string) (x : string) :
  x ∈ add_files files shots <-> x ∈ shots \/ x ∈ files.
Proof.
  revert shots. induction files as [|file files IH]; intros shots; simpl.
  - rewrite elem_of_nil. tauto.
  - case_bool_decide as Hin; rewrite IH, ?elem_of_app, !elem_of_cons,
      ?elem_of_nil; [|tauto].
    split; [tauto|]. intros [?|[->|?]]; tauto.
Qed.

Lemma scan_patterns_elem (d : disk) (patterns shots : list string) (x : string) :
  x ∈ scan_patterns d patterns shots
  <-> x ∈ shots \/ exists p, p ∈ patterns /\ x ∈ glob d p.
Proof.
  revert shots. induction patterns as [|p ps IH]; intros shots; simpl.
  - split; [tauto|]. intros [?|(p & []%elem_of_nil & _)]. done.
  - rewrite IH, add_files_elem. split.
    + intros [[?|?]|(q & Hq & Hx)]; [tauto | right | right].
      * exists p. split; [apply list_elem_of_here|done].
      * exists q. split; [by apply list_elem_of_further|done].
    + intros [?|(q & Hq & Hx)]; [tauto|].
      apply elem_of_cons in Hq as [->|Hq]; [tauto|]. right. by exists q.
Qed.

(** X1: after a collection the artifact list holds exactly what it
    held before together with every match of the three patterns: the
    working directory, the output directory and its screenshots
    directory.  No match is skipped and nothing else is added. *)
Theorem collected_exactly (d : disk) (a : agent) (x : string) :
  x ∈ session_screenshots (collect_screenshots d a)
  <-> x ∈ session_screenshots a
      \/ x ∈ glob d "*.png"
      \/ x ∈ glob d (output_dir a +:+ "/*.png")
      \/ x ∈ glob d (screenshots_dir a +:+ "/*.png").
Proof.
  unfold collect_screenshots, screenshot_patterns. simpl.
  rewrite !add_files_elem. tauto.
Qed.

(** ** What a report shows *)

Lemma count_app (p : flowable -> bool) (st1 st2 : list flowable) :
  count p (st1 ++ st2) = count p st1 + count p st2.
Proof. unfold count. by rewrite List.filter_app, length_app. Qed.

Lemma count_concat_imap {A} (p : flowable -> bool)
    (f : nat -> A -> list flowable) (n : nat) (l : list A) :
  (forall i x, count p (f i x) = n) ->
  count p (concat (imap f l)) = n * length l.
Proof.
  intros Hf. revert f Hf. induction l as [|x l IH]; intros f Hf; simpl.
  - unfold count. simpl. lia.
  - rewrite count_app, Hf, IH; [lia|]. intros i y. apply Hf.
Qed.

Lemma count_entry_block (L : labels) (i : nat) (e : log_entry) :
  count is_image (entry_block L i e) = 0
  /\ count is_page_break (entry_block L i e) = 0
  /\ count is_load_note (entry_block L i e) = 0
  /\ count is_entry_header (entry_block L i e) = 1
  /\ count is_caption (entry_block L i e) = 0.
Proof.
  unfold entry_block.
  destruct (truthy (result e)), (truthy (error e)); repeat split.
Qed.

Lemma count_screenshot_block (d : disk) (shot : string) :
  count is_image (screenshot_block d shot)
  = (if path_exists d shot then 1 else 0)
  /\ count is_load_note (screenshot_block d shot)
     = (if path_exists d shot then 1 else 0)
  /\ count is_page_break (screenshot_block d shot) = 0
  /\ count is_entry_header (screenshot_block d shot) = 0
  /\ count is_caption (screenshot_block d shot) = 0.
Proof.
  destruct (path_exists d shot) eqn:Hdisk.
  - rewrite (screenshot_block_on_disk d shot Hdisk). repeat split.
  - rewrite (screenshot_block_vanished d shot Hdisk). repeat split.
Qed.

Lemma count_screenshot_blocks (d : disk) (shots : list string) :
  count is_image (concat (map (screenshot_block d) shots))
  = length (List.filter (path_exists d) shots)
  /\ count is_load_note (concat (map (screenshot_block d) shots))
     = length (List.filter (path_exists d) shots)
  /\ count is_page_break (concat (map (screenshot_block d) shots)) = 0
  /\ count is_entry_header (concat (map (screenshot_block d) shots)) = 0
  /\ count is_caption (concat (map (screenshot_block d) shots)) = 0.
Proof.
  induction shots as [|shot shots (IHi & IHn & IHp & IHh & IHc)];
    [repeat split|].
  destruct (count_screenshot_block d shot) as (Hi & Hn & Hp & Hh & Hc).
  simpl. rewrite !count_app, Hi, Hn, Hp, Hh, Hc, IHi, IHn, IHp, IHh, IHc.
  destruct (path_exists d shot); repeat split.
Qed.

Lemma count_screenshots_section (d : disk) (shots : list string) :
  count is_image (screenshots_section d shots)
  = length (List.filter (path_exists d) shots)
  /\ count is_load_note (screenshots_section d shots)
     = length (List.filter (path_exists d) shots)
  /\ count is_page_break (screenshots_section d shots)
     = match shots with [] => 0 | _ => 1 end
  /\ count is_entry_header (screenshots_section d shots) = 0
  /\ count is_caption (screenshots_section d shots) = 0.
Proof.
  destruct shots as [|shot shots]; [repeat split|].
  destruct (count_screenshot_blocks d (shot :: shots))
    as (Hi & Hn & Hp & Hh & Hc).
  unfold screenshots_section. rewrite !count_app, Hi, Hn, Hp, Hh, Hc.
  repeat split.
Qed.

(** X2: a report holds one image for each collected screenshot that
    is still on disk and nothing for one that is gone.  The sample
    style sheet has no caption style, so no caption is ever shown:
    every image is followed by an inline "Error loading screenshot"
    note instead.  No other part of the report holds an image or such
    a note. *)
Theorem report_images_and_notes (L : labels) (now : datetime) (d : disk)
    (a : agent) :
  count is_image (story L now d a)
  = length (List.filter (path_exists d) (session_screenshots a))
  /\ count is_load_note (story L now d a)
     = length (List.filter (path_exists d) (session_screenshots a))
  /\ count is_caption (story L now d a) = 0.
Proof.
  destruct (count_screenshots_section d (session_screenshots a))
    as (Hi & Hn & _ & _ & Hc).
  unfold story. rewrite !count_app, Hi, Hn, Hc.
  rewrite (count_concat_imap is_image _ 0), (count_concat_imap is_load_note _ 0),
    (count_concat_imap is_caption _ 0);
    [repeat split | intros i e; apply count_entry_block..].
Qed.

(** X3: the screenshots section, with its page break, is in the report
    exactly when the artifact list is not empty, whether or not any of
    the files can still be shown; a report never has more than one
    page break. *)
Theorem report_page_break (L : labels) (now : datetime) (d : disk) (a : agent) :
  count is_page_break (story L now d a)
  = match session_screenshots a with
    | [] => 0
    | _ => 1
    end.
Proof.
  destruct (count_screenshots_section d (session_screenshots a))
    as (_ & _ & Hp & _ & _).
  unfold story. rewrite !count_app, Hp.
  rewrite (count_concat_imap is_page_break _ 0);
    [reflexivity | intros i e; apply count_entry_block].
Qed.

(** X4: the total printed in the head of a report is the number of
    entry blocks the report shows, one per log entry. *)
Theorem report_total_matches_entries (L : labels) (now : datetime) (d : disk)
    (a : agent) :
  count is_entry_header (story L now d a) = length (session_log a)
  /\ Paragraph ("<b>Total Actions:</b> "
                +:+ pretty (count is_entry_header (story L now d a)))
               SessionInfo ∈ story L now d a.
Proof.
  assert (Hcount : count is_entry_header (story L now d a)
                   = length (session_log a)).
  { destruct (count_screenshots_section d (session_screenshots a))
      as (_ & _ & _ & Hh & _).
    unfold story. rewrite !count_app, Hh.
    rewrite (count_concat_imap is_entry_header _ 1);
      [simpl; lia | intros i e; apply count_entry_block]. }
  split; [exact Hcount|]. rewrite Hcount. unfold story.
  do 4 apply list_elem_of_further. apply list_elem_of_here.
Qed.

(** ** What a session logs *)

Ltac interactive_cases Hstep :=
  unfold PlaywrightAgent.step, PlaywrightAgent.handle, generate_pdf_report in Hstep;
  repeat match type of Hstep with
    | context [match t_prompt ?t with _ => _ end] =>
        destruct (t_prompt t) as [?request|[|?msg|]]
    | context [if String.eqb ?a ?b then _ else _] => destruct (String.eqb a b)
    | context [match t_reply ?t with _ => _ end] =>
        destruct (t_reply t) as [?out|[|?msg|]]
    | context [match w_build ?w ?n with _ => _ end] =>
        destruct (w_build w n) as [?msg|]
    end;
  simpl in Hstep; injection Hstep as <- <-.

Ltac kept_entries :=
  repeat apply Forall_cons_2; try apply Forall_nil_2;
  unfold one_sided, bounded_result; simpl; auto;
  try (intros ? [= <-]; first [apply truncate_length | simpl; lia]);
  try discriminate.

Section Kept.

Context (w : world).

Lemma extends_refl n m : extends n m m.
Proof.
  exists [], []. rewrite !app_nil_r. split; [done|]. split; [done|].
  split; [reflexivity|]. split; constructor.
Qed.

Lemma extends_trans n m1 m2 m3 :
  extends n m1 m2 -> extends n m2 m3 -> extends n m1 m3.
Proof.
  intros (log1 & tr1 & Hlog1 & Htr1 & Ha1 & Ho1 & Hb1)
         (log2 & tr2 & Hlog2 & Htr2 & Ha2 & Ho2 & Hb2).
  exists (log1 ++ log2), (tr1 ++ tr2).
  rewrite Hlog2, Hlog1, Htr2, Htr1, <- !app_assoc.
  split; [done|]. split; [done|]. unfold audited, dispatched in *.
  rewrite !omap_app, Ha1, Ha2. split; [done|]. split; by apply Forall_app.
Qed.

(** An entry that is no request entry, with at most one of result and
    error and a short result. *)
Lemma extends_log n act res err m :
  strip_prefix "User Request: " act = None ->
  res = None \/ err = None ->
  (forall r, res = Some r -> len r <= n + 3) ->
  extends n m (do_log w act res err m).
Proof.
  intros Hact Hside Hres.
  assert (Hnone : logged_request
            (mk_entry (to_seconds (w_now w (tick m))) act res err) = None)
    by exact Hact.
  eexists [_], []. simpl. rewrite app_nil_r.
  split; [done|]. split; [done|]. split.
  - unfold audited. cbn -[logged_request]. by rewrite Hnone.
  - split; apply Forall_singleton; [exact Hside | exact Hres].
Qed.

Lemma extends_emit n ev m :
  dispatched [ev] = [] -> extends n m (emit ev m).
Proof.
  intros Hev. exists [], [ev].
  split; [by rewrite app_nil_r|]. split; [done|].
  split; [unfold audited; by rewrite Hev|]. split; constructor.
Qed.

Lemma extends_finally n L pending m fin m' :
  finally L w pending m = (fin, m') -> extends n m m'.
Proof.
  unfold finally, generate_pdf_report.
  destruct (w_build w _); intros [= <- <-];
    eexists [], [_; _]; simpl; rewrite app_nil_r, <- app_assoc;
    (split; [done|]; split; [done|]; split; [reflexivity|]; split; constructor).
Qed.

(** What one pass of the interactive loop appends. *)
Lemma interactive_step_extends t m c m' :
  PlaywrightAgent.step w t m = (c, m') -> extends 200 m m'.
Proof.
  intros Hstep. unfold extends.
  interactive_cases Hstep; simpl; rewrite <- ?app_assoc;
    (do 2 eexists; split; [first [reflexivity | symmetry; apply app_nil_r]|];
     split; [first [reflexivity | symmetry; apply app_nil_r]|];
     split; [reflexivity|]; split; kept_entries).
Qed.

Lemma interactive_repl_extends script m fin m' :
  PlaywrightAgent.repl w script m = Some (fin, m') -> extends 200 m m'.
Proof.
  revert m. induction script as [|t script IH]; intros m; simpl; [done|].
  destruct (PlaywrightAgent.step w t m) as [c m1] eqn:Hstep.
  apply interactive_step_extends in Hstep.
  destruct c as [| |e].
  - intros Hrepl%IH. by eapply extends_trans.
  - by intros [= <- <-].
  - by intros [= <- <-].
Qed.

Lemma interactive_on_error_extends e m pending m' :
  PlaywrightAgent.on_error w e m = (pending, m') -> extends 200 m m'.
Proof.
  unfold PlaywrightAgent.on_error. destruct (is_Exception e);
    intros [= <- <-]; [|apply extends_refl].
  apply extends_log; [reflexivity | by left | discriminate].
Qed.

Lemma interactive_run_extends startup created script m fin m' :
  PlaywrightAgent.run w startup created script m = Some (fin, m') ->
  extends 200 m m'.
Proof.
  unfold PlaywrightAgent.run.
  destruct startup as [e|]; [|destruct created as [e|]].
  - destruct (PlaywrightAgent.on_error w e m) as [pending m1] eqn:Herr.
    intros [= Hfin]. eapply extends_trans.
    + eapply interactive_on_error_extends, Herr.
    + eapply extends_finally, Hfin.
  - destruct (PlaywrightAgent.on_error w e _) as [pending m3] eqn:Herr.
    intros [= Hfin].
    eapply extends_trans; [apply (extends_emit _ EAcquire); reflexivity|].
    eapply extends_trans;
      [apply (extends_log _ "MCP Server Started"
                (Some "Server initialized successfully") None);
       [reflexivity | by right | intros r [= <-]; simpl; lia]|].
    eapply extends_trans; [apply (extends_emit _ ERelease); reflexivity|].
    eapply extends_trans; [eapply interactive_on_error_extends, Herr|].
    eapply extends_finally, Hfin.
  - destruct (PlaywrightAgent.repl w script _) as [[ending m4]|] eqn:Hrepl;
      [|done].
    apply interactive_repl_extends in Hrepl.
    assert (Hloop : extends 200 m (emit ERelease m4)).
    { eapply extends_trans; [apply (extends_emit _ EAcquire); reflexivity|].
      eapply extends_trans;
        [apply (extends_log _ "MCP Server Started"
                  (Some "Server initialized successfully") None);
         [reflexivity | by right | intros r [= <-]; simpl; lia]|].
      eapply extends_trans;
        [apply (extends_log _ "AI Agent Created"
                  (Some "Agent initialized successfully") None);
         [reflexivity | by right | intros r [= <-]; simpl; lia]|].
      eapply extends_trans; [exact Hrepl|].
      apply extends_emit. reflexivity. }
    destruct ending as [|e].
    + intros [= Hfin]. eapply extends_trans; [exact Hloop|].
      eapply extends_finally, Hfin.
    + destruct (PlaywrightAgent.on_error w e (emit ERelease m4))
        as [pending m5] eqn:Herr.
      intros [= Hfin]. eapply extends_trans; [exact Hloop|].
      eapply extends_trans; [eapply interactive_on_error_extends, Herr|].
      eapply extends_finally, Hfin.
Qed.

End Kept.

(** X5: in an interactive session the log is a faithful record of
    what was dispatched: the requests of its [User Request] entries
    are exactly the requests handed to the controller, in the same
    order, whatever their outcome. *)
Theorem every_dispatch_is_logged (w : world) (startup created : option exn)
    (script : list turn) (fin : ending) (m' : machine)
    (Hrun : PlaywrightAgent.run w startup created script (start w) = Some (fin, m')) :
  omap logged_request (session_log (self m')) = dispatched (trace m').
Proof.
  apply interactive_run_extends in Hrun
    as (new_log & new_tr & Hlog & Htr & Haudit & _).
  rewrite Hlog, Htr. exact Haudit.
Qed.

Lemma every_dispatch_is_logged_witness :
  exists fin m',
    PlaywrightAgent.run still_world None None [request_turn; slow_turn; exit_turn]
                        (start still_world) = Some (fin, m')
    /\ omap logged_request (session_log (self m')) = dispatched (trace m').
Proof.
  assert (Hrun : exists fin m',
            PlaywrightAgent.run still_world None None
              [request_turn; slow_turn; exit_turn] (start still_world)
            = Some (fin, m'))
    by (do 2 eexists; vm_compute; reflexivity).
  destruct Hrun as (fin & m' & Hrun). exists fin, m'.
  split; [exact Hrun|].
  exact (every_dispatch_is_logged still_world None None
           [request_turn; slow_turn; exit_turn] fin m' Hrun).
Defined.

Lemma scripted_log_shape (w : world) (startup created : option exn) (r : reply)
    (url : string) (username password : option string) (m : machine) :
  exists new_log,
    session_log (self (LoginAutomationAgent.run_login_automation
                         w startup created r url username password m).2)
    = session_log (self m) ++ new_log
    /\ Forall one_sided new_log
    /\ Forall (fun e => action e = "Login Automation Completed" ->
                        bounded_result 500 e) new_log.
Proof.
  unfold LoginAutomationAgent.run_login_automation,
    LoginAutomationAgent.on_error, finally, generate_pdf_report.
  destruct startup as [e|];
    [|destruct created as [e|]; [|destruct r as [out|e]]];
    try destruct (is_Exception e); simpl; destruct (w_build w _); simpl;
    rewrite <- ?app_assoc;
    (eexists; split; [first [reflexivity | symmetry; apply app_nil_r]|]);
    (split; repeat apply Forall_cons_2; try apply Forall_nil_2;
     unfold one_sided, bounded_result; simpl; auto; try discriminate).
  all: intros _ r [= <-]; apply truncate_length.
Qed.

(** X6: no entry written by a session of either report agent has both
    a result and an error; every call of [log_action] passes at most
    one of the two. *)
Theorem log_entries_one_sided (w : world) (startup created : option exn)
    (script : list turn) (r : reply) (url : string)
    (username password : option string) (fin : ending) (m' : machine)
    (Hrun : PlaywrightAgent.run w startup created script (start w) = Some (fin, m')) :
  Forall one_sided (session_log (self m'))
  /\ Forall one_sided
       (session_log (self (LoginAutomationAgent.run_login_automation
                             w startup created r url username password (start w)).2)).
Proof.
  split.
  - apply interactive_run_extends in Hrun
      as (new_log & new_tr & Hlog & _ & _ & Hside & _).
    by rewrite Hlog.
  - destruct (scripted_log_shape w startup created r url username password (start w))
      as (new_log & -> & Hside & _). done.
Qed.

Lemma log_entries_one_sided_witness :
  exists m',
    PlaywrightAgent.run still_world None None [slow_turn; exit_turn]
                        (start still_world) = Some (Normally, m')
    /\ Forall one_sided (session_log (self m')).
Proof.
  eexists. split; [vm_compute; reflexivity|].
  apply (log_entries_one_sided still_world None None [slow_turn; exit_turn]
           (Raises TimeoutError) "http://localhost:81/dashboard/" None None
           Normally).
  vm_compute. reflexivity.
Defined.

(** X7: no result text stored by an interactive session is longer
    than 203 characters, and the result of a completed scripted run
    is never longer than 503: the bound of the truncation plus the
    three dots. *)
Theorem stored_results_bounded (w : world) (startup created : option exn)
    (script : list turn) (r : reply) (url : string)
    (username password : option string) (fin : ending) (m' : machine)
    (Hrun : PlaywrightAgent.run w startup created script (start w) = Some (fin, m')) :
  Forall (fun e => forall text, result e = Some text ->
                                len text <= 203)
         (session_log (self m'))
  /\ Forall (fun e => action e = "Login Automation Completed" ->
                      forall text, result e = Some text ->
                                   len text <= 503)
       (session_log (self (LoginAutomationAgent.run_login_automation
                             w startup created r url username password (start w)).2)).
Proof.
  split.
  - apply interactive_run_extends in Hrun
      as (new_log & new_tr & Hlog & _ & _ & _ & Hbound).
    by rewrite Hlog.
  - destruct (scripted_log_shape w startup created r url username password (start w))
      as (new_log & -> & _ & Hbound). done.
Qed.

Lemma stored_results_bounded_witness :
  exists m',
    PlaywrightAgent.run still_world None None [long_turn; exit_turn]
                        (start still_world) = Some (Normally, m')
    /\ Forall (fun e => forall text, result e = Some text ->
                                     len text <= 203)
              (session_log (self m')).
Proof.
  eexists. split; [vm_compute; reflexivity|].
  apply (stored_results_bounded still_world None None [long_turn; exit_turn]
           (Raises TimeoutError) "http://localhost:81/dashboard/" None None
           Normally).
  vm_compute. reflexivity.
Defined.

(** ** Sessions without failures, and sessions without input *)

Lemma plain_step_full (w : world) (t : turn) (m : machine) :
  plain_request t ->
  exists m',
    PlaywrightAgent.step w t m = (Continue, m') /\
    dispatched (trace m') = dispatched (trace m) ++ typed [t] /\
    length (session_log (self m')) = length (session_log (self m)) + 2.
Proof.
  intros (request & Hprompt & Hexit & Hreport & Hreply).
  unfold PlaywrightAgent.step, typed. simpl.
  rewrite Hprompt, (eqb_lower_false _ _ Hexit), (eqb_lower_false _ _ Hreport).
  destruct (t_reply t) as [out|[|msg|]]; [| | |done];
    (eexists; split; [reflexivity|]; simpl; split;
     [unfold dispatched; by rewrite omap_app | rewrite !length_app; simpl; lia]).
Qed.

Lemma plain_repl_full (w : world) (pre : list turn) (m : machine) :
  Forall plain_request pre ->
  exists m1,
    (forall rest, PlaywrightAgent.repl w (pre ++ rest) m
                  = PlaywrightAgent.repl w rest m1) /\
    dispatched (trace m1) = dispatched (trace m) ++ typed pre /\
    length (session_log (self m1))
    = length (session_log (self m)) + 2 * length pre.
Proof.
  intros Hpre. revert m. induction Hpre as [|t pre Ht _ IH]; intros m.
  - exists m. unfold typed. simpl. rewrite app_nil_r. split_and!; [done..|lia].
  - destruct (plain_step_full w t m Ht) as (m0 & Hstep & Htr0 & Hlog0).
    destruct (IH m0) as (m1 & Hrepl & Htr1 & Hlog1).
    exists m1. split_and!.
    + intros rest. simpl. by rewrite Hstep, Hrepl.
    + rewrite Htr1, Htr0, <- app_assoc. unfold typed.
      by rewrite <- omap_app.
    + rewrite Hlog1, Hlog0. simpl. lia.
Qed.

(** X8: an interactive session of ordinary requests closed by [exit]
    comes to its end; every line typed before [exit] was dispatched,
    as typed and in order, and nothing typed after it; the log has two
    entries for the start and two for each request. *)
Theorem plain_session (w : world) (pre rest : list turn) (x : string)
    (rep : reply) (m : machine)
    (Hpre : Forall plain_request pre) (Hexit : lower x = "exit") :
  exists fin m',
    PlaywrightAgent.run w None None (pre ++ mk_turn (Line x) rep :: rest) m
      = Some (fin, m')
    /\ dispatched (trace m') = dispatched (trace m) ++ typed pre
    /\ length (session_log (self m'))
       = length (session_log (self m)) + 2 + 2 * length pre.
Proof.
  unfold PlaywrightAgent.run.
  destruct (plain_repl_full w pre
              (do_log w "AI Agent Created" (Some "Agent initialized successfully")
                 None (do_log w "MCP Server Started"
                         (Some "Server initialized successfully") None
                         (emit EAcquire m))) Hpre)
    as (m1 & -> & Htr & Hlog).
  cbn [PlaywrightAgent.repl]. unfold PlaywrightAgent.step at 1.
  cbn [t_prompt]. rewrite Hexit. cbn [String.eqb Ascii.eqb Bool.eqb].
  unfold finally, generate_pdf_report.
  destruct (w_build w _); do 2 eexists; (split; [reflexivity|]); simpl;
    (split;
     [ unfold dispatched in *; rewrite <- !app_assoc, !omap_app; simpl;
       rewrite app_nil_r, Htr; simpl; rewrite omap_app; simpl;
       by rewrite app_nil_r
     | rewrite Hlog; simpl; rewrite !length_app; simpl; lia ]).
Qed.

Lemma plain_session_witness :
  exists fin m',
    PlaywrightAgent.run still_world None None
      ([request_turn; slow_turn] ++ exit_turn :: [request_turn])
      (start still_world) = Some (fin, m')
    /\ dispatched (trace m') = ["open example.com"; "open example.com"]
    /\ length (session_log (self m')) = 6.
Proof.
  assert (Hplain : Forall plain_request [request_turn; slow_turn]).
  { repeat apply Forall_cons_2; [| |apply Forall_nil_2];
      eexists; (split; [reflexivity|]); split_and!; vm_compute; discriminate. }
  apply (plain_session still_world [request_turn; slow_turn] [request_turn]
           "exit" (Raises TimeoutError) (start still_world) Hplain eq_refl).
Defined.

Lemma failed_read_step (w : world) (t : turn) (m : machine) (tr : list effect) :
  failed_read t ->
  (exists m',
      PlaywrightAgent.step w t m = (Continue, m') /\
      length (session_log (self m')) = S (length (session_log (self m))) /\
      trace m' = trace m /\ files m' = files m)
  /\ Agent.step t tr = (Continue, tr).
Proof.
  intros (e & Hprompt & He). unfold PlaywrightAgent.step, Agent.step.
  rewrite Hprompt, He. split; [|done].
  destruct e as [|msg|]; [| |done];
    (eexists; split; [reflexivity|]; simpl; rewrite length_app; simpl;
     split_and!; [lia|done..]).
Qed.

(** X9: a failing read of the prompt (end of input, for one) never
    ends an interactive session.  The agent with reports logs one
    error entry for each failed read and asks again, the bare agent
    asks again; neither dispatches anything, and when every read
    fails neither run ends. *)
Theorem failed_reads_never_end_session (w : world) (script : list turn)
    (m : machine) (tr : list effect)
    (Hreads : Forall failed_read script) :
  (exists m1,
      (forall rest, PlaywrightAgent.repl w (script ++ rest) m
                    = PlaywrightAgent.repl w rest m1)
      /\ length (session_log (self m1))
         = length (session_log (self m)) + length script
      /\ trace m1 = trace m /\ files m1 = files m)
  /\ (forall rest, Agent.repl (script ++ rest) tr = Agent.repl rest tr)
  /\ PlaywrightAgent.run w None None script m = None
  /\ Agent.run None None script = None.
Proof.
  assert (Hloop : forall m0,
            exists m1,
              (forall rest, PlaywrightAgent.repl w (script ++ rest) m0
                            = PlaywrightAgent.repl w rest m1)
              /\ length (session_log (self m1))
                 = length (session_log (self m0)) + length script
              /\ trace m1 = trace m0 /\ files m1 = files m0).
  { induction Hreads as [|t script Ht _ IH]; intros m0.
    - exists m0. split_and!; [done|simpl; lia|done..].
    - destruct (failed_read_step w t m0 [] Ht)
        as [(m1 & Hstep & Hlog & Htr & Hfiles) _].
      destruct (IH m1) as (m2 & Hrepl & Hlog2 & Htr2 & Hfiles2).
      exists m2. split_and!; [|simpl; lia|congruence..].
      intros rest. simpl. by rewrite Hstep, Hrepl. }
  assert (Hbare : forall tr0 rest,
            Agent.repl (script ++ rest) tr0 = Agent.repl rest tr0).
  { clear Hloop. induction Hreads as [|t script Ht _ IH]; intros tr0 rest; [done|].
    destruct (failed_read_step w t m tr0 Ht) as [_ Hstep].
    simpl. by rewrite Hstep, IH. }
  split_and!.
  - apply Hloop.
  - apply Hbare.
  - unfold PlaywrightAgent.run.
    destruct (Hloop (do_log w "AI Agent Created"
                       (Some "Agent initialized successfully") None
                       (do_log w "MCP Server Started"
                          (Some "Server initialized successfully") None
                          (emit EAcquire m)))) as (m1 & Hrepl & _).
    specialize (Hrepl []). rewrite app_nil_r in Hrepl. by rewrite Hrepl.
  - unfold Agent.run. specialize (Hbare [EAcquire] []).
    rewrite app_nil_r in Hbare. by rewrite Hbare.
Qed.

Lemma failed_reads_never_end_session_witness :
  PlaywrightAgent.run still_world None None
    [ mk_turn (InputRaises (Exception "EOF when reading a line")) (Raises TimeoutError);
      mk_turn (InputRaises (Exception "EOF when reading a line")) (Raises TimeoutError) ]
    (start still_world) = None.
Proof.
  apply (failed_reads_never_end_session still_world _ (start still_world) []).
  repeat apply Forall_cons_2; [| |apply Forall_nil_2];
    eexists; (split; reflexivity).
Defined.

(** ** How a run ends *)

Lemma finally_end (L : labels) (w : world) (pending : ending) (m : machine)
    (fin : ending) (m' : machine) :
  finally L w pending m = (fin, m') ->
  match w_build w (pred (tick m')) with
  | None =>
      fin = pending
      /\ files m' !! report_filename L (self m')
         = Some (story L (w_now w (pred (tick m'))) (w_disk w (pred (tick m')))
                       (self m'))
  | Some msg => fin = Raising (Exception msg)
  end.
Proof.
  unfold finally, generate_pdf_report.
  destruct (w_build w (tick (do_collect w m))) as [msg|] eqn:Hbuild;
    intros [= <- <-]; simpl in *; rewrite Hbuild; [done|].
  split; [done|]. apply lookup_insert_eq.
Qed.

Lemma interactive_on_error_pending (w : world) (e : exn) (m : machine)
    (pending : ending) (m' : machine) :
  PlaywrightAgent.on_error w e m = (pending, m') ->
  pending = Normally \/ pending = Raising KeyboardInterrupt.
Proof.
  unfold PlaywrightAgent.on_error. destruct e; simpl; intros [= <- <-]; auto.
Qed.

Lemma scripted_on_error_pending (w : world) (e : exn) (m : machine)
    (pending : ending) (m' : machine) :
  LoginAutomationAgent.on_error w e m = (pending, m') ->
  pending = Normally \/ pending = Raising KeyboardInterrupt.
Proof.
  unfold LoginAutomationAgent.on_error. destruct e; simpl; intros [= <- <-]; auto.
Qed.

(** Every run of the interactive agent that ends, ends in the
    [finally] block. *)
Lemma interactive_run_finally (w : world) (startup created : option exn)
    (script : list turn) (m : machine) (fin : ending) (m' : machine) :
  PlaywrightAgent.run w startup created script m = Some (fin, m') ->
  exists pending m0,
    finally playwright_labels w pending m0 = (fin, m')
    /\ (pending = Normally \/ pending = Raising KeyboardInterrupt).
Proof.
  unfold PlaywrightAgent.run.
  destruct startup as [e|]; [|destruct created as [e|]].
  - destruct (PlaywrightAgent.on_error w e m) as [pending m1] eqn:Herr.
    intros [= Hfin]. exists pending, m1. split; [done|].
    eapply interactive_on_error_pending, Herr.
  - destruct (PlaywrightAgent.on_error w e _) as [pending m3] eqn:Herr.
    intros [= Hfin]. exists pending, m3. split; [done|].
    eapply interactive_on_error_pending, Herr.
  - destruct (PlaywrightAgent.repl w script _) as [[[|e] m4]|]; [| |done].
    + intros [= Hfin]. exists Normally, (emit ERelease m4). auto.
    + destruct (PlaywrightAgent.on_error w e (emit ERelease m4))
        as [pending m5] eqn:Herr.
      intros [= Hfin]. exists pending, m5. split; [done|].
      eapply interactive_on_error_pending, Herr.
Qed.

Lemma scripted_run_finally (w : world) (startup created : option exn) (r : reply)
    (url : string) (username password : option string) (m : machine) :
  exists pending m0,
    finally login_labels w pending m0
    = ((LoginAutomationAgent.run_login_automation
          w startup created r url username password m).1.1,
       (LoginAutomationAgent.run_login_automation
          w startup created r url username password m).2)
    /\ (pending = Normally \/ pending = Raising KeyboardInterrupt).
Proof.
  unfold LoginAutomationAgent.run_login_automation.
  destruct startup as [e|]; [|destruct created as [e|]].
  - destruct (LoginAutomationAgent.on_error w e m) as [pending m1] eqn:Herr.
    exists pending, m1. destruct (finally login_labels w pending m1).
    split; [done|]. eapply scripted_on_error_pending, Herr.
  - destruct (LoginAutomationAgent.on_error w e _) as [pending m3] eqn:Herr.
    exists pending, m3. destruct (finally login_labels w pending m3).
    split; [done|]. eapply scripted_on_error_pending, Herr.
  - destruct r as [out|e].
    + set (m6 := emit ERelease _). exists Normally, m6.
      destruct (finally login_labels w Normally m6). auto.
    + destruct (LoginAutomationAgent.on_error w e _) as [pending m6] eqn:Herr.
      exists pending, m6. destruct (finally login_labels w pending m6).
      split; [done|]. eapply scripted_on_error_pending, Herr.
Qed.

(** X10: a run of a report agent lets no request error and no start-up
    error out: when the final report is built the run returns or
    passes on an interrupt.  The final report is not protected: when
    its build raises, the run raises that error, whatever happened
    before. *)
Theorem how_a_run_ends (w : world) (startup created : option exn)
    (script : list turn) (r : reply) (url : string)
    (username password : option string) (m : machine)
    (fin : ending) (m' : machine)
    (Hrun : PlaywrightAgent.run w startup created script m = Some (fin, m')) :
  match w_build w (pred (tick m')) with
  | None => fin = Normally \/ fin = Raising KeyboardInterrupt
  | Some msg => fin = Raising (Exception msg)
  end
  /\ let scripted := LoginAutomationAgent.run_login_automation
                       w startup created r url username password m in
     match w_build w (pred (tick scripted.2)) with
     | None => scripted.1.1 = Normally \/ scripted.1.1 = Raising KeyboardInterrupt
     | Some msg => scripted.1.1 = Raising (Exception msg)
     end.
Proof.
  split.
  - apply interactive_run_finally in Hrun as (pending & m0 & Hfin & Hpending).
    apply finally_end in Hfin. destruct (w_build w _); [done|].
    destruct Hfin as [-> _]. done.
  - destruct (scripted_run_finally w startup created r url username password m)
      as (pending & m0 & Hfin & Hpending).
    apply finally_end in Hfin. simpl in *. destruct (w_build w _); [done|].
    destruct Hfin as [-> _]. done.
Qed.

Lemma how_a_run_ends_witness :
  exists m',
    PlaywrightAgent.run readonly_world None None [exit_turn] (start readonly_world)
      = Some (Raising (Exception "Permission denied"), m').
Proof.
  assert (Hrun : exists fin m',
            PlaywrightAgent.run readonly_world None None [exit_turn]
                                (start readonly_world) = Some (fin, m'))
    by (do 2 eexists; vm_compute; reflexivity).
  destruct Hrun as (fin & m' & Hrun).
  pose proof (how_a_run_ends readonly_world None None [exit_turn]
                (Raises TimeoutError) "http://localhost:81/dashboard/"
                None None (start readonly_world) fin m' Hrun) as [Hfin _].
  simpl in Hfin. subst fin. by exists m'.
Defined.

(** X11: when the final report is built, the report file a run leaves
    on disk is the report of the final state: it is rendered from the
    whole log, the last entry included, and from the artifact list as
    collected during the teardown. *)
Theorem final_report_is_of_final_state (w : world) (startup created : option exn)
    (script : list turn) (r : reply) (url : string)
    (username password : option string) (m : machine)
    (fin : ending) (m' : machine)
    (Hrun : PlaywrightAgent.run w startup created script m = Some (fin, m'))
    (Hbuilt : forall t, w_build w t = None) :
  files m' !! report_filename playwright_labels (self m')
  = Some (story playwright_labels (w_now w (pred (tick m')))
                (w_disk w (pred (tick m'))) (self m'))
  /\ let scripted := (LoginAutomationAgent.run_login_automation
                        w startup created r url username password m).2 in
     files scripted !! report_filename login_labels (self scripted)
     = Some (story login_labels (w_now w (pred (tick scripted)))
                   (w_disk w (pred (tick scripted))) (self scripted)).
Proof.
  split.
  - apply interactive_run_finally in Hrun as (pending & m0 & Hfin & _).
    apply finally_end in Hfin. rewrite Hbuilt in Hfin. apply Hfin.
  - destruct (scripted_run_finally w startup created r url username password m)
      as (pending & m0 & Hfin & _).
    apply finally_end in Hfin. simpl in *. rewrite Hbuilt in Hfin. apply Hfin.
Qed.

Lemma final_report_is_of_final_state_witness :
  exists m',
    PlaywrightAgent.run still_world None None [slow_turn; exit_turn]
                        (start still_world) = Some (Normally, m')
    /\ files m' !! report_filename playwright_labels (self m')
       = Some (story playwright_labels noon plain_disk (self m')).
Proof.
  eexists. split; [vm_compute; reflexivity|].
  apply (final_report_is_of_final_state still_world None None
           [slow_turn; exit_turn]
           (Raises TimeoutError) "http://localhost:81/dashboard/" None None
           (start still_world) Normally).
  - vm_compute. reflexivity.
  - intros t. reflexivity.
Defined.

(** ** The scripted login run and its command line *)

(** What a scripted run returns when it returns. *)
Lemma scripted_run_returns (w : world) (startup created : option exn)
    (r : reply) (url : string) (username password : option string)
    (m : machine) :
  let scripted := LoginAutomationAgent.run_login_automation
                    w startup created r url username password m in
  scripted.1.1 = Normally ->
  scripted.1.2 = match startup, created, r with
                 | None, None, FinalOutput out => Some out
                 | _, _, _ => None
                 end.
Proof.
  unfold LoginAutomationAgent.run_login_automation,
    LoginAutomationAgent.on_error, finally, generate_pdf_report.
  destruct startup as [e|];
    [|destruct created as [e|]; [|destruct r as [out|e]]];
    try destruct (is_Exception e); simpl; destruct (w_build w _); simpl; done.
Qed.

(** X12: a scripted run dispatches exactly one request, the login
    command, when the tool process starts and the AI agent is created,
    and none otherwise; a run that returns gives back the output of
    the controller when the request completed and [None] after any
    failure.  The log then has four entries, three when the request
    was interrupted; two when the creation of the AI agent failed, one
    when it was interrupted; one when the start of the tool process
    failed, none when it was interrupted. *)
Theorem scripted_run_outcome (w : world) (startup created : option exn)
    (r : reply) (url : string) (username password : option string) :
  let scripted := LoginAutomationAgent.run_login_automation
                    w startup created r url username password (start w) in
  dispatched (trace scripted.2)
  = match startup, created with
    | None, None => [LoginAutomationAgent.login_command url username password]
    | _, _ => []
    end
  /\ (scripted.1.1 = Normally ->
      scripted.1.2 = match startup, created, r with
                     | None, None, FinalOutput out => Some out
                     | _, _, _ => None
                     end)
  /\ length (session_log (self scripted.2))
     = match startup, created, r with
       | Some e, _, _ => if is_Exception e then 1 else 0
       | None, Some e, _ => if is_Exception e then 2 else 1
       | None, None, FinalOutput _ => 4
       | None, None, Raises e => if is_Exception e then 4 else 3
       end.
Proof.
  unfold LoginAutomationAgent.run_login_automation,
    LoginAutomationAgent.on_error, finally, generate_pdf_report.
  destruct startup as [e|];
    [|destruct created as [e|]; [|destruct r as [out|e]]];
    try destruct (is_Exception e); simpl; destruct (w_build w _); simpl;
    repeat split.
Qed.

Lemma scripted_run_outcome_witness :
  (LoginAutomationAgent.run_login_automation
     still_world None (Some (Exception "The api_key client option must be set"))
     (FinalOutput "Logged in") "http://localhost:81/dashboard/"
     None None (start still_world)).1.2 = None.
Proof.
  apply (scripted_run_outcome still_world None
           (Some (Exception "The api_key client option must be set"))
           (FinalOutput "Logged in") "http://localhost:81/dashboard/"
           None None).
  reflexivity.
Defined.

(** The credentials go into the login command only when both are
    given and not empty.  With the user name or the password missing
    or empty, the command is the one without credentials: what was
    given of the two is dropped. *)
Theorem credentials_need_both (url : string) (username password : option string)
    (Hmissing : truthy username = false \/ truthy password = false) :
  LoginAutomationAgent.login_command url username password
  = LoginAutomationAgent.login_command url None None.
Proof.
  unfold LoginAutomationAgent.login_command.
  destruct Hmissing as [-> | ->]; [done|].
  by rewrite andb_false_r.
Qed.

Lemma credentials_need_both_witness :
  LoginAutomationAgent.login_command "http://localhost:81/dashboard/"
                                     (Some "admin") (Some "")
  = LoginAutomationAgent.login_command "http://localhost:81/dashboard/"
                                       None None.
Proof.
  apply (credentials_need_both "http://localhost:81/dashboard/"
           (Some "admin") (Some "")).
  right. reflexivity.
Defined.

(** X13: the command line of the quick script: without a first
    argument the default address is used; with fewer than three
    arguments (no password) the request is the one without
    credentials, a user name given alone is dropped; arguments after
    the third are ignored. *)
Theorem test_login_arguments (argv extra : list string) :
  (length argv <= 1 -> (TestLogin.parse_argv argv).1.1 = TestLogin.default_url)
  /\ (length argv <= 3 ->
      LoginAutomationAgent.login_command
        (TestLogin.parse_argv argv).1.1 (TestLogin.parse_argv argv).1.2
        (TestLogin.parse_argv argv).2
      = LoginAutomationAgent.login_command (TestLogin.parse_argv argv).1.1
                                           None None)
  /\ (4 <= length argv ->
      TestLogin.parse_argv (argv ++ extra) = TestLogin.parse_argv argv).
Proof.
  unfold TestLogin.parse_argv. split_and!.
  - intros Hlen. simpl. rewrite (lookup_ge_None_2 argv 1); [done|lia].
  - intros Hlen. simpl. apply credentials_need_both. right.
    rewrite (lookup_ge_None_2 argv 3); [done|lia].
  - intros Hlen. rewrite !lookup_app_l by lia. done.
Qed.

Lemma test_login_arguments_witness :
  LoginAutomationAgent.login_command
    (TestLogin.parse_argv ["test_login.py"; "http://example.com/login"; "admin"]).1.1
    (TestLogin.parse_argv ["test_login.py"; "http://example.com/login"; "admin"]).1.2
    (TestLogin.parse_argv ["test_login.py"; "http://example.com/login"; "admin"]).2
  = LoginAutomationAgent.login_command "http://example.com/login" None None.
Proof.
  apply (test_login_arguments
           ["test_login.py"; "http://example.com/login"; "admin"] []).
  simpl. lia.
Defined.

(** X14: the quick script reports success exactly when the tool
    process started, the AI agent was created and the request
    completed with an output that is not empty.  A request that
    completed with an empty output is reported as failed, like a
    timeout or an error. *)
Theorem test_login_verdict (w : world) (startup created : option exn) (r : reply)
    (argv : list string) (v : TestLogin.verdict) (m : machine)
    (Hmain : TestLogin.main w startup created r argv = (Normally, Some v, m)) :
  v = TestLogin.Succeeded
  <-> exists out,
        startup = None /\ created = None /\ r = FinalOutput out /\ out <> "".
Proof.
  revert Hmain. unfold TestLogin.main.
  destruct (TestLogin.parse_argv argv) as [[url username] password].
  pose proof (scripted_run_returns w startup created r url username password
                (start w)) as Hret. simpl in Hret.
  destruct (LoginAutomationAgent.run_login_automation _ _ _ _ _ _ _ _)
    as [[fin result] m1]. simpl in Hret.
  destruct fin as [|e]; [|done]. specialize (Hret eq_refl). subst result.
  intros [= <- <-].
  destruct startup as [e|];
    [|destruct created as [e|]; [|destruct r as [out|e]]]; simpl.
  - split; [done|]. by intros (out & ? & _).
  - split; [done|]. by intros (out & _ & ? & _).
  - destruct (String.eqb_spec out ""); simpl.
    + split; [done|]. intros (out' & _ & _ & [= <-] & Hne). done.
    + split; [|done]. intros _. by exists out.
  - split; [done|]. by intros (out & _ & _ & ? & _).
Qed.

Lemma test_login_verdict_witness :
  exists m,
    TestLogin.main still_world None None (FinalOutput "")
                   ["test_login.py"] = (Normally, Some TestLogin.Failed, m)
    /\ ~ (TestLogin.Failed = TestLogin.Succeeded).
Proof.
  eexists. split; [vm_compute; reflexivity|].
  intros Hv.
  apply (test_login_verdict still_world None None (FinalOutput "")
           ["test_login.py"] TestLogin.Failed _ ltac:(vm_compute; reflexivity))
    in Hv as (out & _ & _ & [= <-] & Hne).
  by apply Hne.
Defined.

(** ** Session ids *)

Lemma digit_inj (a b : N) : digit a = digit b -> (a mod 10 = b mod 10)%N.
Proof.
  unfold digit. intros Heq.
  pose proof (N.mod_upper_bound a 10 ltac:(done)).
  pose proof (N.mod_upper_bound b 10 ltac:(done)).
  apply (f_equal N_of_ascii) in Heq.
  rewrite !N_ascii_embedding in Heq by lia. lia.
Qed.

Lemma peel_digit (a b : N) :
  (a / 10 = b / 10)%N -> (a mod 10 = b mod 10)%N -> a = b.
Proof.
  intros Hq Hr. rewrite (N.div_mod a 10), (N.div_mod b 10), Hq, Hr by done. done.
Qed.

Lemma two_digits (a b : N) :
  (a < 100)%N -> (b < 100)%N ->
  ((a / 10) mod 10 = (b / 10) mod 10)%N -> (a mod 10 = b mod 10)%N -> a = b.
Proof.
  intros Ha Hb Htens Hunits. apply peel_digit; [|done].
  rewrite !N.mod_small in Htens
    by (apply N.Div0.div_lt_upper_bound; lia). done.
Qed.

Lemma four_digits (a b : N) :
  (a < 10000)%N -> (b < 10000)%N ->
  ((a / 1000) mod 10 = (b / 1000) mod 10)%N ->
  ((a / 100) mod 10 = (b / 100) mod 10)%N ->
  ((a / 10) mod 10 = (b / 10) mod 10)%N -> (a mod 10 = b mod 10)%N -> a = b.
Proof.
  intros Ha Hb H3 H2 H1 H0.
  apply peel_digit; [|done]. apply peel_digit; [|done].
  apply peel_digit; rewrite !N.Div0.div_div; [|exact H2].
  rewrite !N.mod_small in H3
    by (apply N.Div0.div_lt_upper_bound; lia). exact H3.
Qed.

(** X15: the session id, and with it the name of the report file, is
    the creation time at second resolution.  Two agents have the same
    id exactly when they were created within the same second of the
    local clock; their reports are then written to the same file. *)
Theorem session_id_is_the_second (a b : datetime)
    (Ha : calendar a) (Hb : calendar b) :
  (session_id (init a) = session_id (init b) <-> to_seconds a = to_seconds b)
  /\ (to_seconds a = to_seconds b ->
      forall L, report_filename L (init a) = report_filename L (init b)).
Proof.
  assert (Hback : to_seconds a = to_seconds b -> init a = init b).
  { unfold to_seconds, init, strftime_id. by intros [= -> -> -> -> -> ->]. }
  split; [split|]; [|by intros ->%Hback|by intros ->%Hback].
  destruct Ha as (Hy & Hmo & Hd & Hh & Hmi & Hs & _).
  destruct Hb as (Hy' & Hmo' & Hd' & Hh' & Hmi' & Hs' & _).
  unfold init, to_seconds. cbn [session_id].
  unfold strftime_id, pad4, pad2.
  intros [= Y3 Y2 Y1 Y0 M1 M0 D1 D0 H1 H0 I1 I0 S1 S0].
  apply digit_inj in Y3, Y2, Y1, Y0, M1, M0, D1, D0, H1, H0, I1, I0, S1, S0.
  rewrite (four_digits (year a) (year b)), (two_digits (month a) (month b)),
    (two_digits (day a) (day b)), (two_digits (hour a) (hour b)),
    (two_digits (minute a) (minute b)), (two_digits (second a) (second b));
    try done; lia.
Qed.

Lemma session_id_is_the_second_witness :
  session_id (init (mk_datetime 2025 6 1 12 0 0 0))
  = session_id (init (mk_datetime 2025 6 1 12 0 0 999999)).
Proof.
  apply (session_id_is_the_second (mk_datetime 2025 6 1 12 0 0 0)
           (mk_datetime 2025 6 1 12 0 0 999999)).
  - repeat split; vm_compute; congruence.
  - repeat split; vm_compute; congruence.
  - reflexivity.
Defined.

(** ** The agents without reports *)

Lemma calm_step (t : turn) (tr : list effect) :
  calm t ->
  Backup.step t tr = Agent.step t tr
  /\ forall e tr', Agent.step t tr <> (Propagate e, tr').
Proof.
  intros [[request Hprompt] [out Hreply]]. unfold Backup.step, Agent.step.
  rewrite Hprompt, Hreply. split; [done|]. intros e tr'.
  by destruct (String.eqb (lower request) "exit").
Qed.

Lemma calm_repl (script : list turn) (tr : list effect) :
  Forall calm script ->
  Backup.repl script tr = Agent.repl script tr
  /\ forall fin tr', Agent.repl script tr = Some (fin, tr') -> fin = Normally.
Proof.
  intros Hcalm. revert tr. induction Hcalm as [|t script Ht _ IH]; intros tr.
  - done.
  - destruct (calm_step t tr Ht) as [Hstep Hnever]. simpl. rewrite Hstep.
    destruct (Agent.step t tr) as [[| |e] tr1].
    + apply IH.
    + split; [done|]. by intros fin tr' [= <- _].
    + by destruct (Hnever e tr1).
Qed.

(** X16: [src/agent.py] is [tests/agent_backup.py] with error handling
    added and nothing else changed: on a session where every read
    returns a line and every request an output, the two runs perform
    the same effects, and end the same way. *)
Theorem backup_agrees_on_calm_sessions (script : list turn)
    (Hcalm : Forall calm script) :
  Backup.run None None script = Agent.run None None script.
Proof.
  unfold Backup.run, Agent.run.
  destruct (calm_repl script [EAcquire] Hcalm) as [-> Hfin].
  destruct (Agent.repl script [EAcquire]) as [[fin tr]|]; [|done].
  by rewrite (Hfin fin tr eq_refl).
Qed.

Lemma backup_agrees_on_calm_sessions_witness :
  Backup.run None None [request_turn; mk_turn (Line "Exit") (FinalOutput "")]
  = Agent.run None None [request_turn; mk_turn (Line "Exit") (FinalOutput "")].
Proof.
  apply (backup_agrees_on_calm_sessions
           [request_turn; mk_turn (Line "Exit") (FinalOutput "")]).
  repeat apply Forall_cons_2; [| |apply Forall_nil_2];
    (split; eexists; reflexivity).
Defined.

Lemma backup_repl_calm (pre rest : list turn) (tr : list effect) :
  Forall calm pre -> Forall (fun r => lower r <> "exit") (typed pre) ->
  Backup.repl (pre ++ rest) tr
  = Backup.repl rest (tr ++ (EDispatch <$> typed pre))
  /\ Agent.repl (pre ++ rest) tr
     = Agent.repl rest (tr ++ (EDispatch <$> typed pre)).
Proof.
  intros Hcalm. revert tr. induction Hcalm as [|t pre Ht _ IH]; intros tr Hne.
  - simpl. by rewrite app_nil_r.
  - destruct Ht as [[request Hprompt] [out Hreply]].
    unfold typed in *. cbn [omap list_omap] in *. rewrite Hprompt in *.
    apply Forall_cons in Hne as [Hreq Hne].
    destruct (IH (tr ++ [EDispatch request]) Hne) as [IHb IHa].
    simpl. unfold Backup.step, Agent.step.
    rewrite Hprompt, Hreply, (eqb_lower_false _ _ Hreq), IHb, IHa.
    by rewrite <- !app_assoc.
Qed.

(** X17: the backup agent has no error handling: the first request
    that raises ends the session with that exception; the tool
    process is still released, and nothing typed afterwards is looked
    at.  The agent of [src/agent.py] goes on to the next turn after
    the same failure. *)
Theorem backup_stops_at_first_failure (pre rest : list turn) (t : turn)
    (request : string) (e : exn)
    (Hcalm : Forall calm pre)
    (Hpre : Forall (fun r => lower r <> "exit") (typed pre))
    (Hprompt : t_prompt t = Line request) (Hrequest : lower request <> "exit")
    (Hreply : t_reply t = Raises e) (Hcaught : is_Exception e = true) :
  Backup.run None None (pre ++ t :: rest)
  = Some (Raising e,
          EAcquire :: (EDispatch <$> typed pre)
          ++ [EDispatch request; ERelease])
  /\ Agent.repl (pre ++ t :: rest) [EAcquire]
     = Agent.repl rest (EAcquire :: (EDispatch <$> typed pre)
                        ++ [EDispatch request]).
Proof.
  unfold Backup.run.
  destruct (backup_repl_calm pre (t :: rest) [EAcquire] Hcalm Hpre) as [-> ->].
  simpl. unfold Backup.step, Agent.step.
  rewrite Hprompt, Hreply, (eqb_lower_false _ _ Hrequest), Hcaught.
  by rewrite <- !app_assoc.
Qed.

Lemma backup_stops_at_first_failure_witness :
  Backup.run None None ([request_turn] ++ slow_turn :: [request_turn])
  = Some (Raising TimeoutError,
          [ EAcquire; EDispatch "open example.com";
            EDispatch "open example.com"; ERelease ]).
Proof.
  apply (backup_stops_at_first_failure [request_turn] [request_turn] slow_turn
           "open example.com" TimeoutError).
  - apply Forall_singleton. split; eexists; reflexivity.
  - apply Forall_singleton. vm_compute. discriminate.
  - reflexivity.
  - vm_compute. discriminate.
  - reflexivity.
  - reflexivity.
Defined.

Lemma agent_repl_shape (script : list turn) (tr : list effect)
    (fin : ending) (tr' : list effect) :
  Agent.repl script tr = Some (fin, tr') ->
  (fin = Normally \/ fin = Raising KeyboardInterrupt)
  /\ exists reqs,
       tr' = tr ++ (EDispatch <$> reqs)
       /\ reqs `prefix_of` typed script
       /\ Forall (fun r => lower r <> "exit") reqs.
Proof.
  revert tr. induction script as [|t script IH]; intros tr; simpl; [done|].
  unfold Agent.step, typed. cbn [omap list_omap].
  destruct (t_prompt t) as [request|e].
  - destruct (String.eqb_spec (lower request) "exit") as [Hexit|Hexit].
    + intros [= <- <-]. split; [auto|]. exists []. rewrite app_nil_r.
      split_and!; [done|apply prefix_nil|constructor].
    + assert (Hgo : Agent.repl script (tr ++ [EDispatch request])
                    = Some (fin, tr') ->
                    (fin = Normally \/ fin = Raising KeyboardInterrupt)
                    /\ exists reqs,
                         tr' = tr ++ (EDispatch <$> reqs)
                         /\ reqs `prefix_of` request :: typed script
                         /\ Forall (fun r => lower r <> "exit") reqs).
      { intros (Hfin & reqs & -> & Hprefix & Hne)%IH. split; [done|].
        exists (request :: reqs). rewrite <- app_assoc.
        split_and!; [done|by apply prefix_cons|by constructor]. }
      destruct (t_reply t) as [out|[|msg|]]; simpl; try exact Hgo.
      intros [= <- <-]. split; [auto|]. exists [request].
      split_and!; [done| |by repeat constructor].
      apply prefix_cons, prefix_nil.
  - destruct e as [|msg|]; simpl; try apply IH.
    intros [= <- <-]. split; [auto|]. exists []. rewrite app_nil_r.
    split_and!; [done|apply prefix_nil|constructor].
Qed.

(** X18: a run of the agent of [src/agent.py] that ends, ends normally
    or by an interrupt: no other exception leaves [run()], a failed
    start or a failed creation of the AI agent included.  When the tool process started it is acquired
    first and released last, once each; in between the controller
    receives lines typed at the prompt, each one as typed, in the
    order typed and without gaps, and never a line that reads [exit]
    in any letter case. *)
Theorem agent_run_shape (startup created : option exn) (script : list turn)
    (fin : ending) (tr : list effect)
    (Hrun : Agent.run startup created script = Some (fin, tr)) :
  (fin = Normally \/ fin = Raising KeyboardInterrupt)
  /\ match startup with
     | Some _ => tr = []
     | None =>
         exists reqs,
           tr = EAcquire :: (EDispatch <$> reqs) ++ [ERelease]
           /\ reqs `prefix_of` typed script
           /\ Forall (fun r => lower r <> "exit") reqs
     end.
Proof.
  revert Hrun. unfold Agent.run.
  destruct startup as [e|]; [|destruct created as [e|]].
  - intros [= <- <-]. split; [|done]. destruct e; simpl; auto.
  - intros [= <- <-]. split; [destruct e; simpl; auto|].
    exists []. split_and!; [done|apply prefix_nil|constructor].
  - destruct (Agent.repl script [EAcquire]) as [[fin0 tr0]|] eqn:Hrepl; [|done].
    apply agent_repl_shape in Hrepl as (Hfin0 & reqs & -> & Hprefix & Hne).
    assert (Hshape : exists reqs0,
              ([EAcquire] ++ (EDispatch <$> reqs)) ++ [ERelease]
              = EAcquire :: (EDispatch <$> reqs0) ++ [ERelease]
              /\ reqs0 `prefix_of` typed script
              /\ Forall (fun r => lower r <> "exit") reqs0)
      by (by exists reqs).
    destruct fin0 as [|e]; [by intros [= <- <-]|].
    destruct Hfin0 as [?|[= ->]]; [done|]. simpl. by intros [= <- <-]; auto.
Qed.

Lemma agent_run_shape_witness :
  exists reqs,
    [EAcquire; EDispatch "open example.com"; ERelease]
    = EAcquire :: (EDispatch <$> reqs) ++ [ERelease]
    /\ reqs `prefix_of` typed [slow_turn; exit_turn; request_turn]
    /\ Forall (fun r => lower r <> "exit") reqs.
Proof.
  apply (agent_run_shape None None [slow_turn; exit_turn; request_turn] Normally
           [EAcquire; EDispatch "open example.com"; ERelease]).
  reflexivity.
Defined.

(** ** What the interactive agent hands to the controller *)

Lemma dispatched_app (tr1 tr2 : list effect) :
  dispatched (tr1 ++ tr2) = dispatched tr1 ++ dispatched tr2.
Proof. unfold dispatched. apply omap_app. Qed.

Lemma typed_cons (t : turn) (script : list turn) :
  typed (t :: script) = typed [t] ++ typed script.
Proof. unfold typed. by rewrite <- omap_app. Qed.

Lemma interactive_handle_trace (w : world) (e : exn) (m : machine)
    (c : control) (m' : machine) :
  PlaywrightAgent.handle w e m = (c, m') -> trace m' = trace m.
Proof. by destruct e; simpl; intros [= <- <-]. Qed.

Lemma interactive_step_dispatch (w : world) (t : turn) (m : machine)
    (c : control) (m' : machine) :
  PlaywrightAgent.step w t m = (c, m') ->
  exists reqs,
    dispatched (trace m') = dispatched (trace m) ++ reqs
    /\ reqs `sublist_of` typed [t]
    /\ Forall (fun r => lower r <> "exit" /\ lower r <> "report") reqs.
Proof.
  unfold PlaywrightAgent.step, typed. cbn [omap list_omap].
  destruct (t_prompt t) as [request|e].
  - destruct (String.eqb_spec (lower request) "exit") as [Hexit|Hexit].
    { intros [= <- <-]. exists []. rewrite app_nil_r.
      split_and!; [done|apply sublist_nil_l|constructor]. }
    destruct (String.eqb_spec (lower request) "report") as [Hreport|Hreport].
    + unfold generate_pdf_report. destruct (w_build w _); simpl;
        intros [= <- <-]; exists []; simpl; rewrite app_nil_r, !dispatched_app;
        simpl; rewrite !app_nil_r;
        (split_and!; [done|apply sublist_nil_l|constructor]).
    + assert (Hsent : forall m1,
                trace m1 = trace m ++ [EDispatch request] ->
                exists reqs,
                  dispatched (trace m1) = dispatched (trace m) ++ reqs
                  /\ reqs `sublist_of` [request]
                  /\ Forall (fun r => lower r <> "exit" /\ lower r <> "report")
                            reqs).
      { intros m1 ->. exists [request]. rewrite dispatched_app.
        split_and!; [done|done|by repeat constructor]. }
      destruct (t_reply t) as [out|e].
      * intros [= <- <-]. by apply Hsent.
      * intros Hhandle%interactive_handle_trace. by apply Hsent.
  - intros Hhandle%interactive_handle_trace. exists []. rewrite app_nil_r, Hhandle.
    split_and!; [done|apply sublist_nil_l|constructor].
Qed.

Lemma interactive_repl_dispatch (w : world) (script : list turn) (m : machine)
    (fin : ending) (m' : machine) :
  PlaywrightAgent.repl w script m = Some (fin, m') ->
  exists reqs,
    dispatched (trace m') = dispatched (trace m) ++ reqs
    /\ reqs `sublist_of` typed script
    /\ Forall (fun r => lower r <> "exit" /\ lower r <> "report") reqs.
Proof.
  revert m. induction script as [|t script IH]; intros m; [done|].
  rewrite typed_cons. cbn [PlaywrightAgent.repl].
  destruct (PlaywrightAgent.step w t m) as [c m1] eqn:Hstep.
  apply interactive_step_dispatch in Hstep as (reqs1 & Htr1 & Hsub1 & Hne1).
  destruct c as [| |e].
  - intros (reqs2 & Htr2 & Hsub2 & Hne2)%IH. exists (reqs1 ++ reqs2).
    rewrite Htr2, Htr1, <- app_assoc.
    split_and!; [done|by apply sublist_app|by apply Forall_app].
  - intros [= <- <-]. exists reqs1.
    split_and!; [done|by apply sublist_inserts_r|done].
  - intros [= <- <-]. exists reqs1.
    split_and!; [done|by apply sublist_inserts_r|done].
Qed.

(** X19: the interactive agent hands to the controller only lines
    typed at the prompt, each as it was typed and in the order typed;
    it never hands over a line that reads [exit] or [report] in any
    letter case, and the start and the teardown dispatch nothing. *)
Theorem interactive_dispatches_typed_lines (w : world) (startup created : option exn)
    (script : list turn) (fin : ending) (m' : machine)
    (Hrun : PlaywrightAgent.run w startup created script (start w) = Some (fin, m')) :
  dispatched (trace m') `sublist_of` typed script
  /\ Forall (fun r => lower r <> "exit" /\ lower r <> "report")
            (dispatched (trace m')).
Proof.
  revert Hrun.
  unfold PlaywrightAgent.run, PlaywrightAgent.on_error, finally,
    generate_pdf_report.
  destruct startup as [e|]; [|destruct created as [e|]].
  - destruct (is_Exception e); simpl; destruct (w_build w _);
      intros [= <- <-]; simpl; (split; [apply sublist_nil_l|constructor]).
  - destruct (is_Exception e); simpl; destruct (w_build w _);
      intros [= <- <-]; simpl; (split; [apply sublist_nil_l|constructor]).
  - destruct (PlaywrightAgent.repl w script _) as [[ending m4]|] eqn:Hrepl;
      [|done].
    apply interactive_repl_dispatch in Hrepl as (reqs & Htr & Hsub & Hne).
    simpl in Htr.
    assert (Hend : forall m5 tail,
              trace m5 = trace m4 ++ tail -> dispatched tail = [] ->
              dispatched (trace m5) `sublist_of` typed script
              /\ Forall (fun r => lower r <> "exit" /\ lower r <> "report")
                        (dispatched (trace m5))).
    { intros m5 tail -> Htail. by rewrite dispatched_app, Htr, Htail, app_nil_r. }
    destruct ending as [|e]; [|destruct (is_Exception e)]; simpl;
      destruct (w_build w _); intros [= <- <-];
      (eapply Hend; [simpl; rewrite <- !app_assoc; reflexivity | reflexivity]).
Qed.

Lemma interactive_dispatches_typed_lines_witness :
  exists fin m',
    PlaywrightAgent.run still_world None None
      [request_turn; report_turn; exit_turn; request_turn] (start still_world)
    = Some (fin, m')
    /\ dispatched (trace m')
       `sublist_of` typed [request_turn; report_turn; exit_turn; request_turn].
Proof.
  assert (Hrun : exists fin m',
            PlaywrightAgent.run still_world None None
              [request_turn; report_turn; exit_turn; request_turn]
              (start still_world) = Some (fin, m'))
    by (do 2 eexists; vm_compute; reflexivity).
  destruct Hrun as (fin & m' & Hrun). exists fin, m'. split; [exact Hrun|].
  apply (interactive_dispatches_typed_lines still_world None None
           [request_turn; report_turn; exit_turn; request_turn] fin m' Hrun).
Defined.
